(** * RigelEngine: the sprite factory (src/engine/sprite_factory.cpp)

    A shallow embedding of the sprite factory: the part resolver, the frame
    remap tables, the tweak pass, the draw-order classifier and the caching
    assembler, followed by the properties of the specification that concern
    them. *)

From stdpp Require Import base option list countable gmap relations.
From Stdlib Require Import ZArith Lia.

#[local] Open Scope Z_scope.

(** ** Machine integers

    [int] is 32 bits wide.  Values are kept in [Z]; every arithmetic
    operation of the source is followed by the two's complement wrap-around.
    In the source an operation that overflows is undefined: what is said
    below about a call returning is said under ranges that exclude it. *)
Module int.

Definition min_int : Z := - 2 ^ 31.
Definition max_int : Z := 2 ^ 31 - 1.

Definition in_range (z : Z) : Prop := min_int <= z <= max_int.

Definition wrap (z : Z) : Z := (z + 2 ^ 31) mod 2 ^ 32 - 2 ^ 31.

Definition add (a b : Z) : Z := wrap (a + b).
Definition sub (a b : Z) : Z := wrap (a - b).
Definition mul (a b : Z) : Z := wrap (a * b).

(** [int(v.size())] *)
Definition of_size (n : nat) : Z := wrap (Z.of_nat n).

End int.

(** ** data::ActorID

    The enumeration itself is declared in data/actor_ids.hpp.  The
    constructors below are the enumerators that sprite_factory.cpp names, in
    the order of their first appearance there; [Other_actor] stands for every
    enumerator the file does not name, carrying its underlying value. *)
Inductive ActorID : Set :=
  | Duke_LEFT | Duke_RIGHT | Reactor_fire_LEFT | Reactor_fire_RIGHT
  | Radar_computer_terminal | Dukes_ship_LEFT | Dukes_ship_RIGHT
  | Dukes_ship_after_exiting_LEFT | Dukes_ship_after_exiting_RIGHT
  | Bomb_dropping_spaceship | Watchbot_container_carrier | Snake
  | Eyeball_thrower_LEFT | Skeleton | Spider | Red_box_turkey
  | Rigelatin_soldier | Ugly_green_bird | Big_green_cat_LEFT
  | Big_green_cat_RIGHT | Spiked_green_creature_LEFT
  | Spiked_green_creature_RIGHT | Unicycle_bot | Hoverbot
  | Hoverbot_teleport_FX | Blue_bonus_globe_1 | Blue_bonus_globe_2
  | Blue_bonus_globe_3 | Blue_bonus_globe_4 | Bonus_globe_shell
  | Teleporter_1 | Teleporter_2 | Green_slime_blob
  | Green_slime_blob_flying_on_ceiling | Eyeball_thrower_RIGHT | Napalm_bomb
  | Blowing_fan | Blowing_fan_threads_on_top | Missile_intact
  | Missile_exhaust_flame | Blue_guard_LEFT | Blue_guard_using_a_terminal
  | Blue_guard_RIGHT | Enemy_laser_shot_LEFT | Enemy_laser_shot_RIGHT
  | Turkey | Messenger_drone_1 | Messenger_drone_2 | Messenger_drone_3
  | Messenger_drone_4 | Messenger_drone_5 | Messenger_drone_body
  | Messenger_drone_part_1 | Messenger_drone_part_2 | Messenger_drone_part_3
  | Messenger_drone_exhaust_flame_1 | Messenger_drone_exhaust_flame_2
  | Messenger_drone_exhaust_flame_3 | Dukes_ship_exhaust_flames
  | Watchbot_container | Sentry_robot_generator | Metal_grabber_claw
  | BOSS_Episode_1 | BOSS_Episode_3 | BOSS_Episode_4 | Rocket_elevator
  | Lava_fountain | Super_force_field_LEFT | Duke_rocket_up
  | Duke_rocket_down | Duke_rocket_left | Duke_rocket_right
  | Duke_laser_shot_horizontal | Duke_laser_shot_vertical
  | Duke_regular_shot_horizontal | Duke_regular_shot_vertical
  | Duke_flame_shot_up | Duke_flame_shot_down | Duke_flame_shot_left
  | Duke_flame_shot_right | Muzzle_flash_up | Muzzle_flash_down
  | Muzzle_flash_left | Muzzle_flash_right | Explosion_FX_1 | Explosion_FX_2
  | Shot_impact_FX | Smoke_puff_FX | Hoverbot_debris_1 | Hoverbot_debris_2
  | Nuclear_waste_can_debris_1 | Nuclear_waste_can_debris_2
  | Nuclear_waste_can_debris_3 | Nuclear_waste_can_debris_4
  | Flame_thrower_fire_RIGHT | Flame_thrower_fire_LEFT | Nuclear_explosion
  | Watchbot_container_debris_1 | Watchbot_container_debris_2
  | Fire_bomb_fire | Duke_death_particles | Bonus_globe_debris_1
  | Bonus_globe_debris_2 | White_circle_flash_FX
  | Nuclear_waste_can_green_slime_inside | Smoke_cloud_FX
  | Biological_enemy_debris | Missile_debris | Eyeball_projectile
  | Enemy_laser_muzzle_flash_1 | Enemy_laser_muzzle_flash_2
  | Metal_grabber_claw_debris_1 | Metal_grabber_claw_debris_2
  | Yellow_fireball_FX | Green_fireball_FX | Blue_fireball_FX
  | Coke_can_debris_1 | Coke_can_debris_2 | Spiked_green_creature_eye_FX_LEFT
  | Spiked_green_creature_eye_FX_RIGHT
  | Spiked_green_creature_stone_debris_1_LEFT
  | Spiked_green_creature_stone_debris_2_LEFT
  | Spiked_green_creature_stone_debris_3_LEFT
  | Spiked_green_creature_stone_debris_4_LEFT
  | Spiked_green_creature_stone_debris_1_RIGHT
  | Spiked_green_creature_stone_debris_2_RIGHT
  | Spiked_green_creature_stone_debris_3_RIGHT
  | Spiked_green_creature_stone_debris_4_RIGHT | Spider_shaken_off
  | Windblown_spider_generator | Spider_debris_2 | Spider_blowing_in_wind
  | Prisoner_hand_debris | Rigelatin_soldier_projectile | Score_number_FX_100
  | Score_number_FX_500 | Score_number_FX_2000 | Score_number_FX_5000
  | Score_number_FX_10000
  | Other_actor (raw : Z).

Definition named_actors : list ActorID :=
  [ Duke_LEFT; Duke_RIGHT; Reactor_fire_LEFT; Reactor_fire_RIGHT
    ; Radar_computer_terminal; Dukes_ship_LEFT; Dukes_ship_RIGHT
    ; Dukes_ship_after_exiting_LEFT; Dukes_ship_after_exiting_RIGHT
    ; Bomb_dropping_spaceship; Watchbot_container_carrier; Snake
    ; Eyeball_thrower_LEFT; Skeleton; Spider; Red_box_turkey
    ; Rigelatin_soldier; Ugly_green_bird; Big_green_cat_LEFT
    ; Big_green_cat_RIGHT; Spiked_green_creature_LEFT
    ; Spiked_green_creature_RIGHT; Unicycle_bot; Hoverbot
    ; Hoverbot_teleport_FX; Blue_bonus_globe_1; Blue_bonus_globe_2
    ; Blue_bonus_globe_3; Blue_bonus_globe_4; Bonus_globe_shell; Teleporter_1
    ; Teleporter_2; Green_slime_blob; Green_slime_blob_flying_on_ceiling
    ; Eyeball_thrower_RIGHT; Napalm_bomb; Blowing_fan
    ; Blowing_fan_threads_on_top; Missile_intact; Missile_exhaust_flame
    ; Blue_guard_LEFT; Blue_guard_using_a_terminal; Blue_guard_RIGHT
    ; Enemy_laser_shot_LEFT; Enemy_laser_shot_RIGHT; Turkey; Messenger_drone_1
    ; Messenger_drone_2; Messenger_drone_3; Messenger_drone_4
    ; Messenger_drone_5; Messenger_drone_body; Messenger_drone_part_1
    ; Messenger_drone_part_2; Messenger_drone_part_3
    ; Messenger_drone_exhaust_flame_1; Messenger_drone_exhaust_flame_2
    ; Messenger_drone_exhaust_flame_3; Dukes_ship_exhaust_flames
    ; Watchbot_container; Sentry_robot_generator; Metal_grabber_claw
    ; BOSS_Episode_1; BOSS_Episode_3; BOSS_Episode_4; Rocket_elevator
    ; Lava_fountain; Super_force_field_LEFT; Duke_rocket_up; Duke_rocket_down
    ; Duke_rocket_left; Duke_rocket_right; Duke_laser_shot_horizontal
    ; Duke_laser_shot_vertical; Duke_regular_shot_horizontal
    ; Duke_regular_shot_vertical; Duke_flame_shot_up; Duke_flame_shot_down
    ; Duke_flame_shot_left; Duke_flame_shot_right; Muzzle_flash_up
    ; Muzzle_flash_down; Muzzle_flash_left; Muzzle_flash_right; Explosion_FX_1
    ; Explosion_FX_2; Shot_impact_FX; Smoke_puff_FX; Hoverbot_debris_1
    ; Hoverbot_debris_2; Nuclear_waste_can_debris_1
    ; Nuclear_waste_can_debris_2; Nuclear_waste_can_debris_3
    ; Nuclear_waste_can_debris_4; Flame_thrower_fire_RIGHT
    ; Flame_thrower_fire_LEFT; Nuclear_explosion; Watchbot_container_debris_1
    ; Watchbot_container_debris_2; Fire_bomb_fire; Duke_death_particles
    ; Bonus_globe_debris_1; Bonus_globe_debris_2; White_circle_flash_FX
    ; Nuclear_waste_can_green_slime_inside; Smoke_cloud_FX
    ; Biological_enemy_debris; Missile_debris; Eyeball_projectile
    ; Enemy_laser_muzzle_flash_1; Enemy_laser_muzzle_flash_2
    ; Metal_grabber_claw_debris_1; Metal_grabber_claw_debris_2
    ; Yellow_fireball_FX; Green_fireball_FX; Blue_fireball_FX
    ; Coke_can_debris_1; Coke_can_debris_2; Spiked_green_creature_eye_FX_LEFT
    ; Spiked_green_creature_eye_FX_RIGHT
    ; Spiked_green_creature_stone_debris_1_LEFT
    ; Spiked_green_creature_stone_debris_2_LEFT
    ; Spiked_green_creature_stone_debris_3_LEFT
    ; Spiked_green_creature_stone_debris_4_LEFT
    ; Spiked_green_creature_stone_debris_1_RIGHT
    ; Spiked_green_creature_stone_debris_2_RIGHT
    ; Spiked_green_creature_stone_debris_3_RIGHT
    ; Spiked_green_creature_stone_debris_4_RIGHT; Spider_shaken_off
    ; Windblown_spider_generator; Spider_debris_2; Spider_blowing_in_wind
    ; Prisoner_hand_debris; Rigelatin_soldier_projectile; Score_number_FX_100
    ; Score_number_FX_500; Score_number_FX_2000; Score_number_FX_5000
    ; Score_number_FX_10000 ].

Definition actor_code (id : ActorID) : nat + Z :=
  match id with
  | Duke_LEFT => inl 0%nat
  | Duke_RIGHT => inl 1%nat
  | Reactor_fire_LEFT => inl 2%nat
  | Reactor_fire_RIGHT => inl 3%nat
  | Radar_computer_terminal => inl 4%nat
  | Dukes_ship_LEFT => inl 5%nat
  | Dukes_ship_RIGHT => inl 6%nat
  | Dukes_ship_after_exiting_LEFT => inl 7%nat
  | Dukes_ship_after_exiting_RIGHT => inl 8%nat
  | Bomb_dropping_spaceship => inl 9%nat
  | Watchbot_container_carrier => inl 10%nat
  | Snake => inl 11%nat
  | Eyeball_thrower_LEFT => inl 12%nat
  | Skeleton => inl 13%nat
  | Spider => inl 14%nat
  | Red_box_turkey => inl 15%nat
  | Rigelatin_soldier => inl 16%nat
  | Ugly_green_bird => inl 17%nat
  | Big_green_cat_LEFT => inl 18%nat
  | Big_green_cat_RIGHT => inl 19%nat
  | Spiked_green_creature_LEFT => inl 20%nat
  | Spiked_green_creature_RIGHT => inl 21%nat
  | Unicycle_bot => inl 22%nat
  | Hoverbot => inl 23%nat
  | Hoverbot_teleport_FX => inl 24%nat
  | Blue_bonus_globe_1 => inl 25%nat
  | Blue_bonus_globe_2 => inl 26%nat
  | Blue_bonus_globe_3 => inl 27%nat
  | Blue_bonus_globe_4 => inl 28%nat
  | Bonus_globe_shell => inl 29%nat
  | Teleporter_1 => inl 30%nat
  | Teleporter_2 => inl 31%nat
  | Green_slime_blob => inl 32%nat
  | Green_slime_blob_flying_on_ceiling => inl 33%nat
  | Eyeball_thrower_RIGHT => inl 34%nat
  | Napalm_bomb => inl 35%nat
  | Blowing_fan => inl 36%nat
  | Blowing_fan_threads_on_top => inl 37%nat
  | Missile_intact => inl 38%nat
  | Missile_exhaust_flame => inl 39%nat
  | Blue_guard_LEFT => inl 40%nat
  | Blue_guard_using_a_terminal => inl 41%nat
  | Blue_guard_RIGHT => inl 42%nat
  | Enemy_laser_shot_LEFT => inl 43%nat
  | Enemy_laser_shot_RIGHT => inl 44%nat
  | Turkey => inl 45%nat
  | Messenger_drone_1 => inl 46%nat
  | Messenger_drone_2 => inl 47%nat
  | Messenger_drone_3 => inl 48%nat
  | Messenger_drone_4 => inl 49%nat
  | Messenger_drone_5 => inl 50%nat
  | Messenger_drone_body => inl 51%nat
  | Messenger_drone_part_1 => inl 52%nat
  | Messenger_drone_part_2 => inl 53%nat
  | Messenger_drone_part_3 => inl 54%nat
  | Messenger_drone_exhaust_flame_1 => inl 55%nat
  | Messenger_drone_exhaust_flame_2 => inl 56%nat
  | Messenger_drone_exhaust_flame_3 => inl 57%nat
  | Dukes_ship_exhaust_flames => inl 58%nat
  | Watchbot_container => inl 59%nat
  | Sentry_robot_generator => inl 60%nat
  | Metal_grabber_claw => inl 61%nat
  | BOSS_Episode_1 => inl 62%nat
  | BOSS_Episode_3 => inl 63%nat
  | BOSS_Episode_4 => inl 64%nat
  | Rocket_elevator => inl 65%nat
  | Lava_fountain => inl 66%nat
  | Super_force_field_LEFT => inl 67%nat
  | Duke_rocket_up => inl 68%nat
  | Duke_rocket_down => inl 69%nat
  | Duke_rocket_left => inl 70%nat
  | Duke_rocket_right => inl 71%nat
  | Duke_laser_shot_horizontal => inl 72%nat
  | Duke_laser_shot_vertical => inl 73%nat
  | Duke_regular_shot_horizontal => inl 74%nat
  | Duke_regular_shot_vertical => inl 75%nat
  | Duke_flame_shot_up => inl 76%nat
  | Duke_flame_shot_down => inl 77%nat
  | Duke_flame_shot_left => inl 78%nat
  | Duke_flame_shot_right => inl 79%nat
  | Muzzle_flash_up => inl 80%nat
  | Muzzle_flash_down => inl 81%nat
  | Muzzle_flash_left => inl 82%nat
  | Muzzle_flash_right => inl 83%nat
  | Explosion_FX_1 => inl 84%nat
  | Explosion_FX_2 => inl 85%nat
  | Shot_impact_FX => inl 86%nat
  | Smoke_puff_FX => inl 87%nat
  | Hoverbot_debris_1 => inl 88%nat
  | Hoverbot_debris_2 => inl 89%nat
  | Nuclear_waste_can_debris_1 => inl 90%nat
  | Nuclear_waste_can_debris_2 => inl 91%nat
  | Nuclear_waste_can_debris_3 => inl 92%nat
  | Nuclear_waste_can_debris_4 => inl 93%nat
  | Flame_thrower_fire_RIGHT => inl 94%nat
  | Flame_thrower_fire_LEFT => inl 95%nat
  | Nuclear_explosion => inl 96%nat
  | Watchbot_container_debris_1 => inl 97%nat
  | Watchbot_container_debris_2 => inl 98%nat
  | Fire_bomb_fire => inl 99%nat
  | Duke_death_particles => inl 100%nat
  | Bonus_globe_debris_1 => inl 101%nat
  | Bonus_globe_debris_2 => inl 102%nat
  | White_circle_flash_FX => inl 103%nat
  | Nuclear_waste_can_green_slime_inside => inl 104%nat
  | Smoke_cloud_FX => inl 105%nat
  | Biological_enemy_debris => inl 106%nat
  | Missile_debris => inl 107%nat
  | Eyeball_projectile => inl 108%nat
  | Enemy_laser_muzzle_flash_1 => inl 109%nat
  | Enemy_laser_muzzle_flash_2 => inl 110%nat
  | Metal_grabber_claw_debris_1 => inl 111%nat
  | Metal_grabber_claw_debris_2 => inl 112%nat
  | Yellow_fireball_FX => inl 113%nat
  | Green_fireball_FX => inl 114%nat
  | Blue_fireball_FX => inl 115%nat
  | Coke_can_debris_1 => inl 116%nat
  | Coke_can_debris_2 => inl 117%nat
  | Spiked_green_creature_eye_FX_LEFT => inl 118%nat
  | Spiked_green_creature_eye_FX_RIGHT => inl 119%nat
  | Spiked_green_creature_stone_debris_1_LEFT => inl 120%nat
  | Spiked_green_creature_stone_debris_2_LEFT => inl 121%nat
  | Spiked_green_creature_stone_debris_3_LEFT => inl 122%nat
  | Spiked_green_creature_stone_debris_4_LEFT => inl 123%nat
  | Spiked_green_creature_stone_debris_1_RIGHT => inl 124%nat
  | Spiked_green_creature_stone_debris_2_RIGHT => inl 125%nat
  | Spiked_green_creature_stone_debris_3_RIGHT => inl 126%nat
  | Spiked_green_creature_stone_debris_4_RIGHT => inl 127%nat
  | Spider_shaken_off => inl 128%nat
  | Windblown_spider_generator => inl 129%nat
  | Spider_debris_2 => inl 130%nat
  | Spider_blowing_in_wind => inl 131%nat
  | Prisoner_hand_debris => inl 132%nat
  | Rigelatin_soldier_projectile => inl 133%nat
  | Score_number_FX_100 => inl 134%nat
  | Score_number_FX_500 => inl 135%nat
  | Score_number_FX_2000 => inl 136%nat
  | Score_number_FX_5000 => inl 137%nat
  | Score_number_FX_10000 => inl 138%nat
  | Other_actor raw => inr raw
  end.

Definition actor_decode (c : nat + Z) : ActorID :=
  match c with
  | inl k => nth k named_actors (Other_actor 0)
  | inr raw => Other_actor raw
  end.

Lemma actor_decode_code (id : ActorID) : actor_decode (actor_code id) = id.
Proof. destruct id; reflexivity. Qed.

#[global] Instance ActorID_eq_dec : EqDecision ActorID.
Proof.
  intros a b. destruct (decide (actor_code a = actor_code b)) as [E | N].
  - left. rewrite <- (actor_decode_code a), <- (actor_decode_code b).
    now rewrite E.
  - right. intros ->. now apply N.
Defined.

#[global] Instance ActorID_countable : Countable ActorID :=
  inj_countable' actor_code actor_decode actor_decode_code.


(** ** Values of the collaborators

    The headers that declare these types are not among the sources; each
    record keeps the members that sprite_factory.cpp reads or writes. *)

(** base::Vector, base::Extents and base::Rect<int>, of headers that are not
    among the sources. *)
Module Base.

Record Vector : Set := mkVector { x : Z; y : Z }.
Record Extents : Set := mkExtents { width : Z; height : Z }.
Record Rect : Set := mkRect { topLeft : Vector; size : Extents }.

(** [a += b] on vectors, component by component *)
Definition plus (a b : Vector) : Vector :=
  mkVector (int.add (x a) (x b)) (int.add (y a) (y b)).

End Base.

(** Modelled from the spec: data::Image, the decoded image of a source frame
    (section 3, PartFrame: "one decoded image"): its pixel values and its
    extents in pixels. *)
Record Image : Set := mkImage { mPixels : list Z; mWidth : Z; mHeight : Z }.

Module Loader.

(** Modelled from the spec: loader::ActorData::Frame (section 3, PartFrame:
    "image handle, 2D integer offset"). *)
Record Frame : Set := mkFrame { mDrawOffset : Base.Vector; mFrameImage : Image }.

(** Modelled from the spec: loader::ActorData (section 3, PartData: "ordered
    sequence of PartFrame, integer draw index"). *)
Record ActorData : Set := mkActorData { mDrawIndex : Z; mFrames : list Frame }.

End Loader.

(** Modelled from the spec: renderer::OwningTexture, the texture that the
    renderer issues for an image (section 6, "createOwnedTexture(image)"); it
    holds the uploaded image, whose extents are the texture's. *)
Record OwningTexture : Set := mkTexture { mData : Image }.

Definition extents (texture : OwningTexture) : Base.Extents :=
  Base.mkExtents (mWidth (mData texture)) (mHeight (mData texture)).

(** Modelled from the spec: engine::SpriteFrame (section 3, FrameDrawData:
    "renderer-owned texture handle, 2D integer offset"). *)
Record SpriteFrame : Set := mkSpriteFrame
  { mImage : OwningTexture; mDrawOffset : Base.Vector }.

(** Modelled from the spec: engine::SpriteDrawData (section 3: "ordered
    sequence of FrameDrawData (concatenated across parts), optional
    orientation-offset integer, frame-remap table (possibly empty), layering
    key"). *)
Record SpriteDrawData : Set := mkSpriteDrawData
  { mFrames : list SpriteFrame;
    mOrientationOffset : option Z;
    mVirtualToRealFrameMap : list Z;
    mDrawOrder : Z }.

(** Modelled from the spec: the factory's SpriteData (section 3: "a
    SpriteDrawData plus the list of first frame index boundaries for each
    constituent part"). *)
Record SpriteData : Set := mkSpriteData
  { mDrawData : SpriteDrawData; mInitialFramesToRender : list Z }.

(** A [const SpriteDrawData*] held by a sprite always points into the cache:
    it is the address of the draw data of the entry stored under a key, and
    is represented by that key. *)
Definition DrawDataPtr : Set := ActorID.

(** Modelled from the spec: components::Sprite (section 3: "a non-owning
    reference to a SpriteDrawData, plus a mutable ordered list of frames to
    render"). *)
Record Sprite : Set := mkSprite
  { mpDrawData : DrawDataPtr; mFramesToRender : list Z }.

(** Modelled from the spec: the orientation of a sprite (section 4.5, the
    "mirrored orientations"). *)
Inductive Orientation : Set := Left | Right.

(** ** The factory's state and its effects *)

(** Calls received by the two collaborators, most recent first. *)
Inductive Event : Set :=
  | LoadActor (partId : ActorID)
  | CreateTexture (image : Image).

Record World : Type := mkWorld
  { mSpriteDataCache : gmap ActorID SpriteData;
    calls : list Event }.

(** What a call does: it returns, an exception of the asset package
    propagates out of it, or it reads or writes outside a vector, which the
    language leaves undefined. *)
Inductive Outcome (A : Type) : Type :=
  | Returned (a : A) (w : World)
  | Thrown (w : World)
  | Undefined.
Arguments Returned {A} a w.
Arguments Thrown {A} w.
Arguments Undefined {A}.

Definition M (A : Type) : Type := World → Outcome A.

#[global] Instance M_ret : MRet M := λ A a w, Returned a w.

#[global] Instance M_bind : MBind M := λ A B f m w,
  match m w with
  | Returned a w' => f a w'
  | Thrown w' => Thrown w'
  | Undefined => Undefined
  end.

(** An unchecked vector operation inside a call. *)
Definition unchecked {A} (o : option A) : M A := λ w,
  match o with
  | Some a => Returned a w
  | None => Undefined
  end.

Definition record_call (e : Event) : M unit := λ w,
  Returned () (mkWorld (mSpriteDataCache w) (e :: calls w)).

Definition foldlM `{MBind F, MRet F} {A B} (f : A → B → F A)
    : A → list B → F A :=
  fix go a l :=
    match l with
    | [] => mret a
    | b :: l => a' ← f a b; go a' l
    end.

(** ** std::vector without bounds checks

    Each operation is defined exactly where the standard defines it. *)
Module Vec.

(** [v[i]], read *)
Definition subscript {A} (v : list A) (i : nat) : option A := v !! i.

(** [v[i]] with an [int] index, converted to [size_t] *)
Definition subscript_int {A} (v : list A) (i : Z) : option A :=
  if decide (0 ≤ i) then v !! Z.to_nat i else None.

(** [v[i] = f (v[i])] *)
Definition update {A} (v : list A) (i : nat) (f : A → A) : option (list A) :=
  if decide (i < length v)%nat then Some (alter f i v) else None.

(** [v.insert(v.begin() + i, a)] *)
Definition insert_at {A} (v : list A) (i : nat) (a : A) : option (list A) :=
  if decide (i ≤ length v)%nat then Some (take i v ++ a :: drop i v) else None.

(** [v.erase(std::next(v.begin(), i), v.end())] *)
Definition erase_from {A} (v : list A) (i : nat) : option (list A) :=
  if decide (i ≤ length v)%nat then Some (take i v) else None.

End Vec.

(** Writes to the draw offset of a frame. *)
Definition with_offset (f : Base.Vector → Base.Vector) (frame : SpriteFrame)
    : SpriteFrame :=
  mkSpriteFrame (mImage frame) (f (mDrawOffset frame)).

(** [mDrawOffset.x -= d] *)
Definition x_minus (d : Z) : SpriteFrame → SpriteFrame :=
  with_offset (λ v, Base.mkVector (int.sub (Base.x v) d) (Base.y v)).

(** [mDrawOffset.x += d] *)
Definition x_plus (d : Z) : SpriteFrame → SpriteFrame :=
  with_offset (λ v, Base.mkVector (int.add (Base.x v) d) (Base.y v)).

(** [mDrawOffset.x = c] *)
Definition x_set (c : Z) : SpriteFrame → SpriteFrame :=
  with_offset (λ v, Base.mkVector c (Base.y v)).

(** [mDrawOffset += d] *)
Definition offset_plus (d : Base.Vector) : SpriteFrame → SpriteFrame :=
  with_offset (λ v, Base.plus v d).

(** ** The anonymous namespace of sprite_factory.cpp *)

Definition createFrameDrawData (frameData : Loader.Frame) : M SpriteFrame :=
  _ ← record_call (CreateTexture (Loader.mFrameImage frameData));
  mret (mkSpriteFrame (mkTexture (Loader.mFrameImage frameData))
                      (Loader.mDrawOffset frameData)).

(** The loop of the player sprite: [frames[i].mDrawOffset.x -= 1] for every
    [i] below 39 other than 35 and 36. *)
Definition tweakDuke (frames : list SpriteFrame) : option (list SpriteFrame) :=
  foldlM (λ frames i,
            if negb (i =? 35)%nat && negb (i =? 36)%nat
            then Vec.update frames i (x_minus 1)
            else Some frames)
         frames (seq 0 39).

(** The loop of the radar computer: [i] runs from 8 up to [frames.size()]. *)
Definition tweakRadar (frames : list SpriteFrame) : option (list SpriteFrame) :=
  foldlM (λ frames i, Vec.update frames i (x_minus 1))
         frames (seq 8 (length frames - 8)).

(** [actorParts[part].mFrames[frame]] *)
Definition partFrame (actorParts : list Loader.ActorData) (part frame : nat)
    : option Loader.Frame :=
  actorData ← Vec.subscript actorParts part;
  Vec.subscript (Loader.mFrames actorData) frame.

Definition tweakDukesShip (frames : list SpriteFrame)
    (actorParts : list Loader.ActorData) : M (list SpriteFrame) :=
  source ← unchecked (partFrame actorParts 2 0);
  copy ← createFrameDrawData source;
  frames ← unchecked (Vec.insert_at frames 8 copy);
  source ← unchecked (partFrame actorParts 2 1);
  copy ← createFrameDrawData source;
  frames ← unchecked (Vec.insert_at frames 9 copy);
  frames ← unchecked (Vec.update frames 8 (x_plus 1));
  unchecked (Vec.update frames 9 (x_plus 1)).

Definition applyTweaks (frames : list SpriteFrame) (actorId : ActorID)
    (actorParts : list Loader.ActorData) : M (list SpriteFrame) :=
  (* Player sprite *)
  frames ← match actorId with
           | Duke_LEFT | Duke_RIGHT => unchecked (tweakDuke frames)
           | _ => mret frames
           end;
  (* Destroyed reactor fire *)
  frames ← match actorId with
           | Reactor_fire_LEFT | Reactor_fire_RIGHT =>
               unchecked (Vec.update frames 0 (x_set 0))
           | _ => mret frames
           end;
  (* Radar computer *)
  frames ← match actorId with
           | Radar_computer_terminal => unchecked (tweakRadar frames)
           | _ => mret frames
           end;
  (* Duke's ship *)
  frames ← match actorId with
           | Dukes_ship_LEFT | Dukes_ship_RIGHT
           | Dukes_ship_after_exiting_LEFT | Dukes_ship_after_exiting_RIGHT =>
               tweakDukesShip frames actorParts
           | _ => mret frames
           end;
  frames ← match actorId with
           | Bomb_dropping_spaceship =>
               frames ← unchecked
                 (Vec.update frames 3 (offset_plus (Base.mkVector 2 0)));
               unchecked (Vec.erase_from frames 4)
           | _ => mret frames
           end;
  match actorId with
  | Watchbot_container_carrier =>
      frames ← unchecked
        (Vec.update frames 2 (offset_plus (Base.mkVector 0 (-2))));
      unchecked (Vec.erase_from frames 3)
  | _ => mret frames
  end.

Definition orientationOffsetForActor (actorId : ActorID) : option Z :=
  match actorId with
  | Duke_LEFT | Duke_RIGHT => Some 39
  | Snake => Some 9
  | Eyeball_thrower_LEFT => Some 10
  | Skeleton => Some 4
  | Spider => Some 13
  | Red_box_turkey => Some 2
  | Rigelatin_soldier => Some 4
  | Ugly_green_bird => Some 3
  | Big_green_cat_LEFT | Big_green_cat_RIGHT => Some 3
  | Spiked_green_creature_LEFT | Spiked_green_creature_RIGHT => Some 6
  | Unicycle_bot => Some 4
  | Dukes_ship_LEFT | Dukes_ship_RIGHT
  | Dukes_ship_after_exiting_LEFT | Dukes_ship_after_exiting_RIGHT => Some 6
  | _ => None
  end.

Definition SPIDER_FRAME_MAP : list Z :=
  [ 3; 4; 5; 9; 10; 11; 6; 8; 9; 14; 15; 12; 13;  (* left *)
    0; 1; 2; 6; 7; 8; 6; 8; 9; 12; 13; 14; 15 ].  (* right *)

Definition UNICYCLE_FRAME_MAP : list Z :=
  [ 0; 5; 1; 2;    (* left *)
    0; 5; 3; 4 ].  (* right *)

Definition DUKES_SHIP_FRAME_MAP : list Z :=
  [ 0; 1; 10; 11; 8; 9;  (* left *)
    2; 3; 6; 7; 4; 5 ].  (* right *)

Definition frameMapForActor (actorId : ActorID) : list Z :=
  match actorId with
  | Spider => SPIDER_FRAME_MAP
  | Unicycle_bot => UNICYCLE_FRAME_MAP
  | Dukes_ship_LEFT | Dukes_ship_RIGHT
  | Dukes_ship_after_exiting_LEFT | Dukes_ship_after_exiting_RIGHT =>
      DUKES_SHIP_FRAME_MAP
  | _ => []
  end.

Definition actorIDListForActor (ID : ActorID) : list ActorID :=
  match ID with
  | Hoverbot => [Hoverbot; Hoverbot_teleport_FX]
  | Duke_LEFT | Duke_RIGHT => [Duke_LEFT; Duke_RIGHT]
  | Blue_bonus_globe_1 | Blue_bonus_globe_2
  | Blue_bonus_globe_3 | Blue_bonus_globe_4 => [ID; Bonus_globe_shell]
  | Teleporter_1 => [Teleporter_2]
  | Green_slime_blob => [Green_slime_blob; Green_slime_blob_flying_on_ceiling]
  | Eyeball_thrower_LEFT => [Eyeball_thrower_LEFT; Eyeball_thrower_RIGHT]
  | Bomb_dropping_spaceship => [Bomb_dropping_spaceship; Napalm_bomb]
  | Blowing_fan => [Blowing_fan; Blowing_fan_threads_on_top]
  | Missile_intact => [Missile_intact; Missile_exhaust_flame]
  | Blue_guard_LEFT | Blue_guard_using_a_terminal => [Blue_guard_RIGHT]
  | Enemy_laser_shot_LEFT | Enemy_laser_shot_RIGHT => [Enemy_laser_shot_RIGHT]
  | Red_box_turkey => [Turkey]
  | Messenger_drone_1 | Messenger_drone_2 | Messenger_drone_3
  | Messenger_drone_4 | Messenger_drone_5 =>
      [ Messenger_drone_body;
        Messenger_drone_part_1; Messenger_drone_part_2; Messenger_drone_part_3;
        Messenger_drone_exhaust_flame_1; Messenger_drone_exhaust_flame_2;
        Messenger_drone_exhaust_flame_3;
        ID ]
  | Big_green_cat_LEFT | Big_green_cat_RIGHT =>
      [Big_green_cat_LEFT; Big_green_cat_RIGHT]
  | Spiked_green_creature_LEFT | Spiked_green_creature_RIGHT =>
      [Spiked_green_creature_LEFT; Spiked_green_creature_RIGHT]
  | Dukes_ship_LEFT | Dukes_ship_RIGHT
  | Dukes_ship_after_exiting_LEFT | Dukes_ship_after_exiting_RIGHT =>
      [Dukes_ship_LEFT; Dukes_ship_RIGHT; Dukes_ship_exhaust_flames]
  | Watchbot_container_carrier =>
      [Watchbot_container_carrier; Watchbot_container]
  | _ => [ID]
  end.

Section SpriteFactory.

(** The draw-order categories and the skip marker are constants of headers
    that are not among the sources; they are parameters here. *)
Variables PLAYER_PROJECTILE_DRAW_ORDER MUZZLE_FLASH_DRAW_ORDER
          EFFECT_DRAW_ORDER IGNORE_RENDER_SLOT : Z.

(** [mpSpritePackage->loadActor]: the frames and the draw index of a part,
    or nothing when the package has to raise an exception. *)
Variable loadActor : ActorID → option Loader.ActorData.

(** [data::pixelExtentsToTileExtents] of data/unit_conversions.hpp. *)
Variable pixelExtentsToTileExtents : Base.Extents → Base.Extents.

(** [virtualToRealFrame], declared with the sprite components: given a
    virtual frame, the draw data and an orientation it yields a real frame,
    unless it fails. *)
Variable virtualToRealFrame :
  Z → SpriteDrawData → option Orientation → option Z.

Definition configureSprite (sprite : Sprite) (actorID : ActorID) : Sprite :=
  let render frames := mkSprite (mpDrawData sprite) frames in
  match actorID with
  | Hoverbot => render [0]
  | Bomb_dropping_spaceship => render [3; 0; 1]
  | Green_slime_blob => render [0]
  | Eyeball_thrower_LEFT => render [0]
  | Sentry_robot_generator => render [0; 4]
  | Missile_intact => render [0]
  | Metal_grabber_claw => render [1]
  | Spider => render [6]
  | Blue_guard_LEFT => render [6]
  | BOSS_Episode_1 => render [0; 2]
  | BOSS_Episode_3 => render [IGNORE_RENDER_SLOT; 1; 0]
  | BOSS_Episode_4 => render [0; 1]
  | Rocket_elevator => render [5; 0]
  | Blue_guard_using_a_terminal => render [12]
  | Lava_fountain =>
      (* Handled by custom render func *)
      render []
  | Radar_computer_terminal => render [0; 1; 2; 3]
  | Watchbot_container => render [0; 1]
  | Watchbot_container_carrier => render [0; 2]
  | Super_force_field_LEFT => render [0; 3]
  | Big_green_cat_LEFT | Big_green_cat_RIGHT
  | Spiked_green_creature_LEFT | Spiked_green_creature_RIGHT
  | Duke_LEFT | Duke_RIGHT
  | Dukes_ship_LEFT | Dukes_ship_RIGHT
  | Dukes_ship_after_exiting_LEFT | Dukes_ship_after_exiting_RIGHT =>
      render [0]
  | _ => sprite
  end.

Definition SCALE_FACTOR : Z := 10.

Definition scale (drawOrderValue : Z) : Z :=
  int.mul drawOrderValue SCALE_FACTOR.

Definition adjustedDrawOrder (id : ActorID) (baseDrawOrder : Z) : Z :=
  match id with
  | Duke_rocket_up | Duke_rocket_down | Duke_rocket_left | Duke_rocket_right
  | Duke_laser_shot_horizontal | Duke_laser_shot_vertical
  | Duke_regular_shot_horizontal | Duke_regular_shot_vertical
  | Duke_flame_shot_up | Duke_flame_shot_down
  | Duke_flame_shot_left | Duke_flame_shot_right
  | Reactor_fire_LEFT | Reactor_fire_RIGHT =>
      scale PLAYER_PROJECTILE_DRAW_ORDER
  | Muzzle_flash_up | Muzzle_flash_down
  | Muzzle_flash_left | Muzzle_flash_right =>
      scale MUZZLE_FLASH_DRAW_ORDER
  | Explosion_FX_1 | Explosion_FX_2 | Shot_impact_FX | Smoke_puff_FX
  | Hoverbot_debris_1 | Hoverbot_debris_2
  | Nuclear_waste_can_debris_1 | Nuclear_waste_can_debris_2
  | Nuclear_waste_can_debris_3 | Nuclear_waste_can_debris_4
  | Flame_thrower_fire_RIGHT | Flame_thrower_fire_LEFT
  | Nuclear_explosion
  | Watchbot_container_debris_1 | Watchbot_container_debris_2
  | Fire_bomb_fire | Duke_death_particles
  | Bonus_globe_debris_1 | Bonus_globe_debris_2
  | White_circle_flash_FX | Nuclear_waste_can_green_slime_inside
  | Smoke_cloud_FX | Biological_enemy_debris | Missile_debris
  | Eyeball_projectile
  | Enemy_laser_muzzle_flash_1 | Enemy_laser_muzzle_flash_2
  | Metal_grabber_claw_debris_1 | Metal_grabber_claw_debris_2
  | Yellow_fireball_FX | Green_fireball_FX | Blue_fireball_FX
  | Coke_can_debris_1 | Coke_can_debris_2
  | Spiked_green_creature_eye_FX_LEFT | Spiked_green_creature_eye_FX_RIGHT
  | Spiked_green_creature_stone_debris_1_LEFT
  | Spiked_green_creature_stone_debris_2_LEFT
  | Spiked_green_creature_stone_debris_3_LEFT
  | Spiked_green_creature_stone_debris_4_LEFT
  | Spiked_green_creature_stone_debris_1_RIGHT
  | Spiked_green_creature_stone_debris_2_RIGHT
  | Spiked_green_creature_stone_debris_3_RIGHT
  | Spiked_green_creature_stone_debris_4_RIGHT
  | Spider_shaken_off | Windblown_spider_generator | Spider_debris_2
  | Spider_blowing_in_wind | Prisoner_hand_debris
  | Rigelatin_soldier_projectile =>
      scale EFFECT_DRAW_ORDER
  | Score_number_FX_100 | Score_number_FX_500 | Score_number_FX_2000
  | Score_number_FX_5000 | Score_number_FX_10000 =>
      scale EFFECT_DRAW_ORDER
  | Napalm_bomb =>
      (* Make the bomb appear behind the bomber plane *)
      int.sub (scale baseDrawOrder) 1
  | _ => scale baseDrawOrder
  end.

(** ** SpriteFactory *)

Definition throw {A} : M A := λ w, Thrown w.

(** One call of [mpSpritePackage->loadActor(partId)]. *)
Definition loadActorCall (partId : ActorID) : M Loader.ActorData :=
  _ ← record_call (LoadActor partId);
  match loadActor partId with
  | Some actorData => mret actorData
  | None => throw
  end.

(** [utils::transformed] of base/container_utils.hpp: the results of the
    function on the elements, in their order. *)
Definition transformed {A B} (l : list A) (f : A → M B) : M (list B) :=
  mapM f l.

(** The local variables of the assembly loop. *)
Record Locals : Set := mkLocals
  { drawFrames : list SpriteFrame;
    lastDrawOrder : Z;
    lastFrameCount : Z;
    framesToRender : list Z }.

(** The body of the loop over the loaded parts. *)
Definition appendPart (s : Locals) (actorData : Loader.ActorData)
    : M Locals :=
  newFrames ← mapM createFrameDrawData (Loader.mFrames actorData);
  mret (mkLocals
          (drawFrames s ++ newFrames)
          (Loader.mDrawIndex actorData)
          (int.of_size (length (Loader.mFrames actorData)))
          (framesToRender s ++ [lastFrameCount s])).

(** [mSpriteDataCache.emplace(key, data).first->second] *)
Definition emplace (key : ActorID) (data : SpriteData) : M SpriteData := λ w,
  match mSpriteDataCache w !! key with
  | Some present => Returned present w
  | None =>
      Returned data (mkWorld (<[key := data]> (mSpriteDataCache w)) (calls w))
  end.

(** The branch of [createOrFindData] taken when the key is not cached. *)
Definition assemble (mainId : ActorID) : M SpriteData :=
  actorParts ← transformed (actorIDListForActor mainId) loadActorCall;
  s ← foldlM appendPart (mkLocals [] 0 0 []) actorParts;
  frames ← applyTweaks (drawFrames s) mainId actorParts;
  emplace mainId
    (mkSpriteData
       (mkSpriteDrawData frames
          (orientationOffsetForActor mainId)
          (frameMapForActor mainId)
          (adjustedDrawOrder mainId (lastDrawOrder s)))
       (framesToRender s)).

Definition createOrFindData (mainId : ActorID) : M SpriteData := λ w,
  match mSpriteDataCache w !! mainId with
  | Some data => Returned data w
  | None => assemble mainId w
  end.

Definition createSprite (id : ActorID) : M Sprite :=
  data ← createOrFindData id;
  mret (configureSprite (mkSprite id (mInitialFramesToRender data)) id).

Definition actorFrameRect (id : ActorID) (frame : Z) : M Base.Rect :=
  data ← createOrFindData id;
  realFrame ← match virtualToRealFrame 0 (mDrawData data) None with
              | Some realFrame => mret realFrame
              | None => throw
              end;
  frameData ← unchecked (Vec.subscript_int (mFrames (mDrawData data)) realFrame);
  mret (Base.mkRect (mDrawOffset frameData)
                    (pixelExtentsToTileExtents (extents (mImage frameData)))).

(** The query as section 4.2 words it: it "resolves the virtual frame index
    [frame] to a real index" and returns the draw offset and the size in
    tiles of that frame. *)
Definition actorFrameRectOfFrame (id : ActorID) (frame : Z) : M Base.Rect :=
  data ← createOrFindData id;
  realFrame ← match virtualToRealFrame frame (mDrawData data) None with
              | Some realFrame => mret realFrame
              | None => throw
              end;
  frameData ← unchecked (Vec.subscript_int (mFrames (mDrawData data)) realFrame);
  mret (Base.mkRect (mDrawOffset frameData)
                    (pixelExtentsToTileExtents (extents (mImage frameData)))).

(** One use of the cache by either entry point: [createSprite] and
    [actorFrameRect] change the state through [createOrFindData] only.
    The call returns, or the asset package raises. *)
Inductive step : World → World → Prop :=
  | step_returned mainId data w w' :
      createOrFindData mainId w = Returned data w' → step w w'
  | step_thrown mainId w w' :
      createOrFindData mainId w = Thrown w' → step w w'.

(** The state after any number of uses. *)
Definition later : World → World → Prop := rtc step.

End SpriteFactory.

(** [SpriteFactory::SpriteFactory]: nothing is cached, and no collaborator
    has been called. *)
Definition newFactory : World := mkWorld ∅ [].

(** A computation that leaves the cache as it found it. *)
Definition keepsCache {A} (m : M A) : Prop :=
  ∀ w, match m w with
       | Returned _ w' | Thrown w' => mSpriteDataCache w' = mSpriteDataCache w
       | Undefined => True
       end.

(** A computation in which no exception is raised. *)
Definition neverThrows {A} (m : M A) : Prop := ∀ w w', m w ≠ Thrown w'.

(** ** The assembly loops in closed form *)

(** The frame that [createFrameDrawData] returns. *)
Definition frameDrawData (frameData : Loader.Frame) : SpriteFrame :=
  mkSpriteFrame (mkTexture (Loader.mFrameImage frameData))
                (Loader.mDrawOffset frameData).

(** [drawData.mFrames] when the loop over the parts ends. *)
Definition concatenated (actorParts : list Loader.ActorData)
    : list SpriteFrame :=
  actorParts ≫= λ actorData, frameDrawData <$> Loader.mFrames actorData.

(** [framesToRender] when the loop ends: one entry per part, the first
    one 0, every other one the frame count of the part before. *)
Definition recorded (actorParts : list Loader.ActorData) : list Z :=
  take (length actorParts)
       (0 :: ((λ actorData, int.of_size (length (Loader.mFrames actorData)))
                <$> actorParts)).

(** [lastDrawOrder] when the loop ends. *)
Definition lastDrawIndex (actorParts : list Loader.ActorData) : Z :=
  default 0 (Loader.mDrawIndex <$> last actorParts).

(** The draw data a sprite points to. *)
Definition deref (w : World) (p : DrawDataPtr) : option SpriteDrawData :=
  mDrawData <$> lookup (K:=ActorID) p (mSpriteDataCache w).

(** ** The specification's side *)

(** The orientation [k] of section 4.5: the left-facing block of frames comes
    first, the right-facing block second; no orientation selects the first. *)
Definition orientationIndex (orientation : option Orientation) : Z :=
  match orientation with
  | Some Right => 1
  | _ => 0
  end.

(** Modelled from the spec: virtualToRealFrame is declared outside the
    sources.  Section 4.5: with an orientation offset "the real index for
    orientation k is virtualIndex + k * orientationOffset"; with a remap table
    the "real index is simply table[virtualIndex]", a lookup that "must be
    bounds-checked against the table length" and "fail explicitly"; "absence
    of both means virtual index equals real index".  Where an identifier has
    both, the offset selects the block of the table. *)
Definition virtualToRealFrame (virtualFrame : Z) (drawData : SpriteDrawData)
    (orientation : option Orientation) : option Z :=
  let index :=
    match mOrientationOffset drawData with
    | Some orientationOffset =>
        virtualFrame + orientationIndex orientation * orientationOffset
    | None => virtualFrame
    end in
  match mVirtualToRealFrameMap drawData with
  | [] => Some index
  | table => Vec.subscript_int table index
  end.

(** The part boundaries as section 4.2 words them: "for every part in order,
    the starting index (current total frame count)". *)
Fixpoint boundariesFrom (total : Z) (actorParts : list Loader.ActorData)
    : list Z :=
  match actorParts with
  | [] => []
  | actorData :: rest =>
      total :: boundariesFrom
                 (total + Z.of_nat (length (Loader.mFrames actorData))) rest
  end.

Definition partBoundaries (actorParts : list Loader.ActorData) : list Z :=
  boundariesFrom 0 actorParts.

(** The default-visible-frames table of section 4.3, entry by entry. *)
Definition defaultVisibleFrames (IGNORE_RENDER_SLOT : Z)
    : list (ActorID * list Z) :=
  [ (Hoverbot, [0]);
    (Bomb_dropping_spaceship, [3; 0; 1]);
    (Green_slime_blob, [0]);
    (Eyeball_thrower_LEFT, [0]);
    (Sentry_robot_generator, [0; 4]);
    (Missile_intact, [0]);
    (Metal_grabber_claw, [1]);
    (Spider, [6]);
    (Blue_guard_LEFT, [6]);
    (BOSS_Episode_1, [0; 2]);
    (BOSS_Episode_3, [IGNORE_RENDER_SLOT; 1; 0]);
    (BOSS_Episode_4, [0; 1]);
    (Rocket_elevator, [5; 0]);
    (Blue_guard_using_a_terminal, [12]);
    (Lava_fountain, []);
    (Radar_computer_terminal, [0; 1; 2; 3]);
    (Watchbot_container, [0; 1]);
    (Watchbot_container_carrier, [0; 2]);
    (Super_force_field_LEFT, [0; 3]);
    (Big_green_cat_LEFT, [0]);
    (Big_green_cat_RIGHT, [0]);
    (Spiked_green_creature_LEFT, [0]);
    (Spiked_green_creature_RIGHT, [0]);
    (Duke_LEFT, [0]);
    (Duke_RIGHT, [0]);
    (Dukes_ship_LEFT, [0]);
    (Dukes_ship_RIGHT, [0]);
    (Dukes_ship_after_exiting_LEFT, [0]);
    (Dukes_ship_after_exiting_RIGHT, [0]) ].

(** The categories of section 4.4. *)
Definition playerProjectiles : list ActorID :=
  [ Duke_rocket_up; Duke_rocket_down; Duke_rocket_left; Duke_rocket_right;
    Duke_laser_shot_horizontal; Duke_laser_shot_vertical;
    Duke_regular_shot_horizontal; Duke_regular_shot_vertical;
    Duke_flame_shot_up; Duke_flame_shot_down;
    Duke_flame_shot_left; Duke_flame_shot_right;
    Reactor_fire_LEFT; Reactor_fire_RIGHT ].

Definition muzzleFlashes : list ActorID :=
  [ Muzzle_flash_up; Muzzle_flash_down; Muzzle_flash_left; Muzzle_flash_right ].

Definition effects : list ActorID :=
  [ Explosion_FX_1; Explosion_FX_2; Shot_impact_FX; Smoke_puff_FX;
    Hoverbot_debris_1; Hoverbot_debris_2;
    Nuclear_waste_can_debris_1; Nuclear_waste_can_debris_2;
    Nuclear_waste_can_debris_3; Nuclear_waste_can_debris_4;
    Flame_thrower_fire_RIGHT; Flame_thrower_fire_LEFT; Nuclear_explosion;
    Watchbot_container_debris_1; Watchbot_container_debris_2;
    Fire_bomb_fire; Duke_death_particles;
    Bonus_globe_debris_1; Bonus_globe_debris_2;
    White_circle_flash_FX; Nuclear_waste_can_green_slime_inside;
    Smoke_cloud_FX; Biological_enemy_debris; Missile_debris;
    Eyeball_projectile;
    Enemy_laser_muzzle_flash_1; Enemy_laser_muzzle_flash_2;
    Metal_grabber_claw_debris_1; Metal_grabber_claw_debris_2;
    Yellow_fireball_FX; Green_fireball_FX; Blue_fireball_FX;
    Coke_can_debris_1; Coke_can_debris_2;
    Spiked_green_creature_eye_FX_LEFT; Spiked_green_creature_eye_FX_RIGHT;
    Spiked_green_creature_stone_debris_1_LEFT;
    Spiked_green_creature_stone_debris_2_LEFT;
    Spiked_green_creature_stone_debris_3_LEFT;
    Spiked_green_creature_stone_debris_4_LEFT;
    Spiked_green_creature_stone_debris_1_RIGHT;
    Spiked_green_creature_stone_debris_2_RIGHT;
    Spiked_green_creature_stone_debris_3_RIGHT;
    Spiked_green_creature_stone_debris_4_RIGHT;
    Spider_shaken_off; Windblown_spider_generator; Spider_debris_2;
    Spider_blowing_in_wind; Prisoner_hand_debris;
    Rigelatin_soldier_projectile ].

Definition scoreNumbers : list ActorID :=
  [ Score_number_FX_100; Score_number_FX_500; Score_number_FX_2000;
    Score_number_FX_5000; Score_number_FX_10000 ].

Definition specialCategories : list ActorID :=
  playerProjectiles ++ muzzleFlashes ++ effects ++ scoreNumbers.

(** The indices that the tweak rule of an identifier touches are all inside
    the frame sequence (and inside the part it copies from). *)
Definition tweakInBounds (frames : list SpriteFrame) (actorId : ActorID)
    (actorParts : list Loader.ActorData) : Prop :=
  match actorId with
  | Duke_LEFT | Duke_RIGHT => (39 ≤ length frames)%nat
  | Reactor_fire_LEFT | Reactor_fire_RIGHT => (1 ≤ length frames)%nat
  | Dukes_ship_LEFT | Dukes_ship_RIGHT
  | Dukes_ship_after_exiting_LEFT | Dukes_ship_after_exiting_RIGHT =>
      (8 ≤ length frames)%nat ∧
      ∃ actorData, actorParts !! 2%nat = Some actorData ∧
                   (2 ≤ length (Loader.mFrames actorData))%nat
  | Bomb_dropping_spaceship => (4 ≤ length frames)%nat
  | Watchbot_container_carrier => (3 ≤ length frames)%nat
  | _ => True
  end.

(** ** A small asset package to run the factory on *)
Module Demo.

Definition frame (k : Z) : Loader.Frame :=
  Loader.mkFrame (Base.mkVector k (10 * k)) (mkImage [k] (8 * (k + 1)) 16).

Definition actor (drawIndex : Z) (ks : list Z) : Loader.ActorData :=
  Loader.mkActorData drawIndex (frame <$> ks).

(** The ship parts follow the layout that [applyTweaks] documents: two
    frames, two frames, six frames of exhaust flames.  The reactor fire and
    the smoke puff have no frame at all, and the package knows no unnamed
    identifier. *)
Definition loadActor (id : ActorID) : option Loader.ActorData :=
  match id with
  | Dukes_ship_LEFT => Some (actor 3 [0; 1])
  | Dukes_ship_RIGHT => Some (actor 3 [2; 3])
  | Dukes_ship_exhaust_flames => Some (actor 4 [4; 5; 6; 7; 8; 9])
  | Reactor_fire_LEFT => Some (actor 2 [])
| Smoke_puff_FX => Some (actor 6 [])
  | Other_actor _ => None
  | _ => Some (actor 5 [20; 21])
  end.

Definition PLAYER_PROJECTILE_DRAW_ORDER : Z := 16.
Definition MUZZLE_FLASH_DRAW_ORDER : Z := 12.
Definition EFFECT_DRAW_ORDER : Z := 13.
Definition IGNORE_RENDER_SLOT : Z := -1.

(** Tiles of eight by eight pixels. *)
Definition pixelExtentsToTileExtents (e : Base.Extents) : Base.Extents :=
  Base.mkExtents (Base.width e ÷ 8) (Base.height e ÷ 8).

Definition createOrFindData : ActorID → M SpriteData :=
  createOrFindData PLAYER_PROJECTILE_DRAW_ORDER MUZZLE_FLASH_DRAW_ORDER
                   EFFECT_DRAW_ORDER loadActor.

Definition createSprite : ActorID → M Sprite :=
  createSprite PLAYER_PROJECTILE_DRAW_ORDER MUZZLE_FLASH_DRAW_ORDER
               EFFECT_DRAW_ORDER IGNORE_RENDER_SLOT loadActor.

Definition actorFrameRect : ActorID → Z → M Base.Rect :=
  actorFrameRect PLAYER_PROJECTILE_DRAW_ORDER MUZZLE_FLASH_DRAW_ORDER
                 EFFECT_DRAW_ORDER loadActor pixelExtentsToTileExtents
                 virtualToRealFrame.

Definition actorFrameRectOfFrame : ActorID → Z → M Base.Rect :=
  actorFrameRectOfFrame PLAYER_PROJECTILE_DRAW_ORDER MUZZLE_FLASH_DRAW_ORDER
                        EFFECT_DRAW_ORDER loadActor pixelExtentsToTileExtents
                        virtualToRealFrame.

(** Six frames to run a tweak rule on. *)
Definition sixFrames : list SpriteFrame :=
  frameDrawData <$> (frame <$> [0; 1; 2; 3; 4; 5]).

(** Forty frames, enough for the rule of the player sprite. *)
Definition fortyFrames : list SpriteFrame :=
  frameDrawData <$> (frame <$> (Z.of_nat <$> seq 0 40)).

(** The package without the teleport effect of the hoverbot. *)
Definition loadActorWithoutEffect (id : ActorID) : option Loader.ActorData :=
  match id with
  | Hoverbot_teleport_FX => None
  | _ => loadActor id
  end.

(** What a call returns, when it returns. *)
Definition value {A} (o : Outcome A) : option A :=
  match o with
  | Returned a _ => Some a
  | _ => None
  end.

End Demo.


(** ** Groups of identifiers in [applyTweaks] *)

(** The identifiers of Duke's ship, which share one rule, one remap table
    and one part list. *)
Definition shipActors : list ActorID :=
  [ Dukes_ship_LEFT; Dukes_ship_RIGHT;
    Dukes_ship_after_exiting_LEFT; Dukes_ship_after_exiting_RIGHT ].

(** The identifiers that some [if] of [applyTweaks] names. *)
Definition tweakedActors : list ActorID :=
  [ Duke_LEFT; Duke_RIGHT; Reactor_fire_LEFT; Reactor_fire_RIGHT;
    Radar_computer_terminal ]
  ++ shipActors
  ++ [ Bomb_dropping_spaceship; Watchbot_container_carrier ].

(** Pairs of identifiers for which the part resolver, the two remap lookups,
    the draw-order classifier and [applyTweaks] all take the same case or the
    same default. *)
Definition sharedAssemblies : list (ActorID * ActorID) :=
  [ (Duke_LEFT, Duke_RIGHT);
    (Big_green_cat_LEFT, Big_green_cat_RIGHT);
    (Spiked_green_creature_LEFT, Spiked_green_creature_RIGHT);
    (Dukes_ship_LEFT, Dukes_ship_RIGHT);
    (Dukes_ship_LEFT, Dukes_ship_after_exiting_LEFT);
    (Dukes_ship_LEFT, Dukes_ship_after_exiting_RIGHT);
    (Teleporter_1, Teleporter_2);
    (Blue_guard_LEFT, Blue_guard_RIGHT);
    (Blue_guard_using_a_terminal, Blue_guard_RIGHT);
    (Enemy_laser_shot_LEFT, Enemy_laser_shot_RIGHT) ].

(** ** Ranges of the [int] arithmetic

    Signed overflow is undefined in the C++ source, where the operations of
    [int] above wrap.  The predicates below give ranges in which no operation
    of the file overflows, so that the two agree. *)

(** [scale] multiplies by ten, and the napalm bomb subtracts one after it. *)
Definition scaleDefined (drawOrderValue : Z) : Prop :=
  int.min_int < drawOrderValue * 10 ≤ int.max_int.

(** [applyTweaks] moves an offset by at most two, and no frame twice. *)
Definition offsetMovable (v : Base.Vector) : Prop :=
  (int.min_int + 2 ≤ Base.x v ≤ int.max_int - 2)
  ∧ (int.min_int + 2 ≤ Base.y v ≤ int.max_int - 2).

Definition framesMovable (actorData : Loader.ActorData) : Prop :=
  Forall (λ frameData, offsetMovable (Loader.mDrawOffset frameData))
         (Loader.mFrames actorData).

Definition offsetsMovable (frames : list SpriteFrame)
    (actorParts : list Loader.ActorData) : Prop :=
  Forall (λ frame, offsetMovable (mDrawOffset frame)) frames
  ∧ Forall framesMovable actorParts.

Definition partInRange (actorData : Loader.ActorData) : Prop :=
  scaleDefined (Loader.mDrawIndex actorData) ∧ framesMovable actorData.

(** ** Identifiers with an orientation offset *)

(** The identifiers that [frameMapForActor] names. *)
Definition remappedActors : list ActorID :=
  [ Spider; Unicycle_bot ] ++ shipActors.

(** The identifiers that [orientationOffsetForActor] names and
    [frameMapForActor] does not. *)
Definition offsetOnlyActors : list ActorID :=
  [ Duke_LEFT; Duke_RIGHT; Snake; Eyeball_thrower_LEFT; Skeleton;
    Red_box_turkey; Rigelatin_soldier; Ugly_green_bird;
    Big_green_cat_LEFT; Big_green_cat_RIGHT;
    Spiked_green_creature_LEFT; Spiked_green_creature_RIGHT ].

(** * Properties *)

(** ** Machine integers *)

Lemma wrap_in_range (z : Z) : int.in_range z → int.wrap z = z.
Proof.
  unfold int.in_range, int.min_int, int.max_int, int.wrap. intros H.
  rewrite Z.mod_small; lia.
Qed.

(** ** The effects *)

Lemma bind_run {A B} (m : M A) (f : A → M B) (w : World) :
  (m ≫= f) w = match m w with
               | Returned a w' => f a w'
               | Thrown w' => Thrown w'
               | Undefined => Undefined
               end.
Proof. reflexivity. Qed.

Lemma bind_Returned {A B} (m : M A) (f : A → M B) w b w' :
  (m ≫= f) w = Returned b w' →
  ∃ a w1, m w = Returned a w1 ∧ f a w1 = Returned b w'.
Proof. rewrite bind_run. destruct (m w); naive_solver. Qed.

Lemma bind_Thrown {A B} (m : M A) (f : A → M B) w w' :
  (m ≫= f) w = Thrown w' →
  m w = Thrown w' ∨ ∃ a w1, m w = Returned a w1 ∧ f a w1 = Thrown w'.
Proof. rewrite bind_run. destruct (m w); naive_solver. Qed.

Lemma keepsCache_ret {A} (a : A) : keepsCache (mret a).
Proof. intros w. reflexivity. Qed.

Lemma keepsCache_bind {A B} (m : M A) (f : A → M B) :
  keepsCache m → (∀ a, keepsCache (f a)) → keepsCache (m ≫= f).
Proof.
  intros Hm Hf w. rewrite bind_run. specialize (Hm w).
  destruct (m w) as [a w1 | w1 |]; [|done..].
  specialize (Hf a w1). destruct (f a w1); congruence.
Qed.

Lemma keepsCache_unchecked {A} (o : option A) : keepsCache (unchecked o).
Proof. intros w. unfold unchecked. by destruct o. Qed.

Lemma keepsCache_record_call (e : Event) : keepsCache (record_call e).
Proof. intros w. reflexivity. Qed.

Lemma keepsCache_mapM {A B} (f : A → M B) (l : list A) :
  (∀ a, keepsCache (f a)) → keepsCache (mapM f l).
Proof.
  intros Hf. induction l as [|a l IH]; simpl.
  - apply keepsCache_ret.
  - apply keepsCache_bind; [apply Hf|]. intros b.
    apply keepsCache_bind; [apply IH|]. intros k. apply keepsCache_ret.
Qed.

Lemma keepsCache_foldlM {A B} (f : A → B → M A) (l : list B) :
  (∀ a b, keepsCache (f a b)) → ∀ a, keepsCache (foldlM f a l).
Proof.
  intros Hf. induction l as [|b l IH]; intros a; simpl.
  - apply keepsCache_ret.
  - apply keepsCache_bind; [apply Hf|]. intros a'. apply IH.
Qed.

Lemma keepsCache_createFrameDrawData frameData :
  keepsCache (createFrameDrawData frameData).
Proof.
  apply keepsCache_bind; [apply keepsCache_record_call|].
  intros _. apply keepsCache_ret.
Qed.

Lemma neverThrows_ret {A} (a : A) : neverThrows (mret a).
Proof. intros w w'. discriminate. Qed.

Lemma neverThrows_unchecked {A} (o : option A) : neverThrows (unchecked o).
Proof. intros w w'. unfold unchecked. by destruct o. Qed.

Lemma neverThrows_bind {A B} (m : M A) (f : A → M B) :
  neverThrows m → (∀ a, neverThrows (f a)) → neverThrows (m ≫= f).
Proof.
  intros Hm Hf w w' [H | (a & w1 & _ & H)]%bind_Thrown.
  - by eapply Hm.
  - by eapply Hf.
Qed.

Lemma neverThrows_createFrameDrawData frameData :
  neverThrows (createFrameDrawData frameData).
Proof. intros w w'. discriminate. Qed.

(** ** Unchecked vector operations *)

Lemma update_Some {A} (v : list A) (i : nat) (f : A → A) :
  (i < length v)%nat → Vec.update v i f = Some (alter f i v).
Proof. intros H. unfold Vec.update. by rewrite decide_True. Qed.

Lemma update_None {A} (v : list A) (i : nat) (f : A → A) :
  (length v ≤ i)%nat → Vec.update v i f = None.
Proof. intros H. unfold Vec.update. rewrite decide_False; [done | lia]. Qed.

Lemma foldlM_update_Some {A} (g : A → A) (c : nat → bool) (l : list nat) :
  ∀ v : list A,
    Forall (λ i, c i = true → (i < length v)%nat) l →
    ∃ v', foldlM (λ v i, if c i then Vec.update v i g else Some v) v l = Some v'
          ∧ length v' = length v.
Proof.
  induction l as [|i l IH]; intros v Hall; simpl.
  - by exists v.
  - inversion Hall as [|? ? Hi Hl]; subst.
    destruct (c i) eqn:Hc.
    + rewrite update_Some by auto. simpl.
      destruct (IH (alter g i v)) as (v' & -> & Hlen).
      { by rewrite length_alter. }
      exists v'. by rewrite Hlen, length_alter.
    + simpl. by apply IH.
Qed.

Lemma foldlM_update_None {A} (g : A → A) (c : nat → bool) (l : list nat) :
  ∀ v : list A,
    Exists (λ i, c i = true ∧ (length v ≤ i)%nat) l →
    foldlM (λ v i, if c i then Vec.update v i g else Some v) v l = None.
Proof.
  induction l as [|i l IH]; intros v Hex; simpl.
  - inversion Hex.
  - destruct (c i) eqn:Hc.
    + destruct (decide (i < length v)%nat) as [Hlt | Hge].
      * rewrite update_Some by done. simpl. apply IH.
        rewrite length_alter.
        inversion Hex as [? ? [_ ?] | ? ? Ht]; subst; [lia | done].
      * rewrite update_None by lia. done.
    + simpl. apply IH.
      inversion Hex as [? ? [? _] | ? ? Ht]; subst; [congruence | done].
Qed.

Lemma tweakDuke_Some frames :
  (39 ≤ length frames)%nat →
  ∃ frames', tweakDuke frames = Some frames' ∧ length frames' = length frames.
Proof.
  intros H. apply (foldlM_update_Some (x_minus 1)
    (λ i, negb (i =? 35)%nat && negb (i =? 36)%nat)).
  apply Forall_forall. intros i Hi%elem_of_seq _. lia.
Qed.

Lemma tweakDuke_None frames :
  (length frames < 39)%nat → tweakDuke frames = None.
Proof.
  intros H. apply (foldlM_update_None (x_minus 1)
    (λ i, negb (i =? 35)%nat && negb (i =? 36)%nat)).
  apply Exists_exists. exists 38%nat. split.
  - apply elem_of_seq. lia.
  - split; [reflexivity | lia].
Qed.

Lemma tweakRadar_Some frames :
  ∃ frames', tweakRadar frames = Some frames' ∧ length frames' = length frames.
Proof.
  apply (foldlM_update_Some (x_minus 1) (λ _, true)).
  apply Forall_forall. intros i Hi%elem_of_seq _. lia.
Qed.

Lemma insert_at_Some {A} (v : list A) (i : nat) (a : A) :
  (i ≤ length v)%nat → Vec.insert_at v i a = Some (take i v ++ a :: drop i v).
Proof. intros H. unfold Vec.insert_at. by rewrite decide_True. Qed.

Lemma erase_from_Some {A} (v : list A) (i : nat) :
  (i ≤ length v)%nat → Vec.erase_from v i = Some (take i v).
Proof. intros H. unfold Vec.erase_from. by rewrite decide_True. Qed.

Lemma length_insert_at {A} (v : list A) (i : nat) (a : A) :
  (i ≤ length v)%nat → length (take i v ++ a :: drop i v) = S (length v).
Proof.
  intros H. rewrite length_app, length_take. simpl. rewrite length_drop. lia.
Qed.

(** ** The tweak pass, rule by rule *)

Lemma createFrameDrawData_run frameData w :
  createFrameDrawData frameData w =
    Returned (mkSpriteFrame (mkTexture (Loader.mFrameImage frameData))
                            (Loader.mDrawOffset frameData))
             (mkWorld (mSpriteDataCache w)
                      (CreateTexture (Loader.mFrameImage frameData) :: calls w)).
Proof. reflexivity. Qed.

Lemma unchecked_Some {A} (a : A) w : unchecked (Some a) w = Returned a w.
Proof. reflexivity. Qed.

(** What [tweakDukesShip] returns when it returns. *)
Lemma tweakDukesShip_Returned frames actorParts actorData first second w :
  (8 ≤ length frames)%nat →
  actorParts !! 2%nat = Some actorData →
  Loader.mFrames actorData !! 0%nat = Some first →
  Loader.mFrames actorData !! 1%nat = Some second →
  ∃ w',
    tweakDukesShip frames actorParts w =
      Returned
        (take 8 frames
           ++ x_plus 1 (mkSpriteFrame (mkTexture (Loader.mFrameImage first))
                                      (Loader.mDrawOffset first))
           :: x_plus 1 (mkSpriteFrame (mkTexture (Loader.mFrameImage second))
                                      (Loader.mDrawOffset second))
           :: drop 8 frames) w'
    ∧ mSpriteDataCache w' = mSpriteDataCache w.
Proof.
  intros Hlen Hpart Hfirst Hsecond.
  do 8 (destruct frames as [|? frames]; [simpl in Hlen; lia|]).
  eexists. unfold tweakDukesShip, partFrame, Vec.subscript.
  rewrite Hpart. simpl. rewrite Hfirst, Hsecond.
  repeat first
    [ rewrite unchecked_Some
    | rewrite createFrameDrawData_run
    | rewrite insert_at_Some by (simpl; lia)
    | rewrite update_Some by (simpl; lia)
    | rewrite bind_run ].
  split; reflexivity.
Qed.
Lemma ret_run {A} (a : A) w : mret (M:=M) a w = Returned a w.
Proof. reflexivity. Qed.

Lemma ret_bind {A B} (a : A) (f : A → M B) w : (mret (M:=M) a ≫= f) w = f a w.
Proof. reflexivity. Qed.

#[local] Ltac run_ret :=
  repeat first [ rewrite ret_bind; cbv beta iota | rewrite ret_run ].

Lemma applyTweaks_rule frames actorId actorParts w :
  applyTweaks frames actorId actorParts w =
    match actorId with
    | Duke_LEFT | Duke_RIGHT => unchecked (tweakDuke frames) w
    | Reactor_fire_LEFT | Reactor_fire_RIGHT =>
        unchecked (Vec.update frames 0 (x_set 0)) w
    | Radar_computer_terminal => unchecked (tweakRadar frames) w
    | Dukes_ship_LEFT | Dukes_ship_RIGHT
    | Dukes_ship_after_exiting_LEFT | Dukes_ship_after_exiting_RIGHT =>
        tweakDukesShip frames actorParts w
    | Bomb_dropping_spaceship =>
        (frames ← unchecked
           (Vec.update frames 3 (offset_plus (Base.mkVector 2 0)));
         unchecked (Vec.erase_from frames 4)) w
    | Watchbot_container_carrier =>
        (frames ← unchecked
           (Vec.update frames 2 (offset_plus (Base.mkVector 0 (-2))));
         unchecked (Vec.erase_from frames 3)) w
    | _ => Returned frames w
    end.
Proof.
  destruct actorId; try reflexivity; unfold applyTweaks.
  all: cbv beta iota; run_ret; try reflexivity.
  all: rewrite bind_run; case_match; run_ret; reflexivity.
Qed.

Lemma insert_at_None {A} (v : list A) (i : nat) (a : A) :
  (length v < i)%nat → Vec.insert_at v i a = None.
Proof. intros H. unfold Vec.insert_at. rewrite decide_False; [done | lia]. Qed.

Lemma tweakDukesShip_Undefined frames actorParts w :
  ¬ ((8 ≤ length frames)%nat ∧
     ∃ actorData, actorParts !! 2%nat = Some actorData ∧
                  (2 ≤ length (Loader.mFrames actorData))%nat) →
  tweakDukesShip frames actorParts w = Undefined.
Proof.
  intros H. unfold tweakDukesShip, partFrame, Vec.subscript.
  destruct (actorParts !! 2%nat) as [actorData|] eqn:Hpart; simpl;
    [|reflexivity].
  destruct (Loader.mFrames actorData) as [|first [|second rest]] eqn:Hframes;
    simpl; [reflexivity|..];
    rewrite bind_run, unchecked_Some, bind_run, createFrameDrawData_run,
      bind_run.
  - destruct (decide (8 ≤ length frames)%nat) as [Hlen | Hlen].
    + rewrite insert_at_Some by done. reflexivity.
    + rewrite insert_at_None by lia. reflexivity.
  - rewrite insert_at_None; [reflexivity|].
    destruct (decide (8 ≤ length frames)%nat) as [Hlen | Hlen]; [|lia].
    exfalso. apply H. split; [done|]. exists actorData.
    rewrite Hframes. simpl. split; [done | lia].
Qed.

Lemma neverThrows_tweakDukesShip frames actorParts :
  neverThrows (tweakDukesShip frames actorParts).
Proof.
  unfold tweakDukesShip.
  repeat first
    [ apply neverThrows_unchecked
    | apply neverThrows_createFrameDrawData
    | apply neverThrows_bind; [|intros ?] ].
Qed.

Lemma keepsCache_tweakDukesShip frames actorParts :
  keepsCache (tweakDukesShip frames actorParts).
Proof.
  unfold tweakDukesShip.
  repeat first
    [ apply keepsCache_unchecked
    | apply keepsCache_createFrameDrawData
    | apply keepsCache_bind; [|intros ?] ].
Qed.

Lemma neverThrows_applyTweaks frames actorId actorParts :
  neverThrows (applyTweaks frames actorId actorParts).
Proof.
  intros w w'. rewrite applyTweaks_rule.
  destruct actorId; try discriminate;
    first
      [ apply neverThrows_unchecked
      | apply neverThrows_tweakDukesShip
      | apply neverThrows_bind;
        [apply neverThrows_unchecked | intros ?; apply neverThrows_unchecked] ].
Qed.

Lemma keepsCache_applyTweaks frames actorId actorParts :
  keepsCache (applyTweaks frames actorId actorParts).
Proof.
  intros w. rewrite applyTweaks_rule.
  destruct actorId; try reflexivity;
    first
      [ apply keepsCache_unchecked
      | apply keepsCache_tweakDukesShip
      | apply keepsCache_bind;
        [apply keepsCache_unchecked | intros ?; apply keepsCache_unchecked] ].
Qed.

Lemma tweakDukesShip_in_bounds frames actorParts w :
  (8 ≤ length frames)%nat ∧
  (∃ actorData, actorParts !! 2%nat = Some actorData ∧
                (2 ≤ length (Loader.mFrames actorData))%nat) →
  ∃ frames' w',
    tweakDukesShip frames actorParts w = Returned frames' w'
    ∧ length frames' = (length frames + 2)%nat.
Proof.
  intros (Hlen & actorData & Hpart & Htwo).
  destruct (Loader.mFrames actorData) as [|first [|second rest]] eqn:Hframes;
    simpl in Htwo; try lia.
  destruct (tweakDukesShip_Returned frames actorParts actorData first second w)
    as (w' & Heq & _); rewrite ?Hframes; try done.
  eexists _, _. split; [exact Heq|].
  rewrite length_app, length_take_le by done. cbn [length].
  rewrite length_drop. lia.
Qed.

Lemma applyTweaks_Returned frames actorId actorParts w :
  tweakInBounds frames actorId actorParts →
  ∃ frames' w', applyTweaks frames actorId actorParts w = Returned frames' w'.
Proof.
  rewrite applyTweaks_rule.
  destruct actorId; simpl; intros H; try (by eexists _, _).
  - destruct (tweakDuke_Some frames H) as (frames' & -> & _). by eexists _, _.
  - destruct (tweakDuke_Some frames H) as (frames' & -> & _). by eexists _, _.
  - rewrite update_Some by lia. by eexists _, _.
  - rewrite update_Some by lia. by eexists _, _.
  - destruct (tweakRadar_Some frames) as (frames' & -> & _). by eexists _, _.
  - destruct (tweakDukesShip_in_bounds frames actorParts w H)
      as (frames' & w' & Heq & _).
    by exists frames', w'.
  - destruct (tweakDukesShip_in_bounds frames actorParts w H)
      as (frames' & w' & Heq & _).
    by exists frames', w'.
  - destruct (tweakDukesShip_in_bounds frames actorParts w H)
      as (frames' & w' & Heq & _).
    by exists frames', w'.
  - destruct (tweakDukesShip_in_bounds frames actorParts w H)
      as (frames' & w' & Heq & _).
    by exists frames', w'.
  - rewrite bind_run, update_Some, unchecked_Some, erase_from_Some
      by (rewrite ?length_alter; lia).
    by eexists _, _.
  - rewrite bind_run, update_Some, unchecked_Some, erase_from_Some
      by (rewrite ?length_alter; lia).
    by eexists _, _.
Qed.

Lemma applyTweaks_Undefined frames actorId actorParts w :
  ¬ tweakInBounds frames actorId actorParts →
  applyTweaks frames actorId actorParts w = Undefined.
Proof.
  rewrite applyTweaks_rule.
  destruct actorId; simpl; intros H; try (by destruct H).
  - rewrite tweakDuke_None by lia. reflexivity.
  - rewrite tweakDuke_None by lia. reflexivity.
  - rewrite update_None by lia. reflexivity.
  - rewrite update_None by lia. reflexivity.
  - by apply tweakDukesShip_Undefined.
  - by apply tweakDukesShip_Undefined.
  - by apply tweakDukesShip_Undefined.
  - by apply tweakDukesShip_Undefined.
  - rewrite bind_run, update_None by lia. reflexivity.
  - rewrite bind_run, update_None by lia. reflexivity.
Qed.

(** Membership in the listed categories and tables. *)
#[local] Ltac not_in_category H :=
  exfalso; apply list_elem_of_In in H; simpl in H;
  repeat (destruct H as [H | H]; [discriminate H|]); exact H.

#[local] Ltac in_category :=
  apply list_elem_of_In; simpl; repeat first [ left; reflexivity | right ].

(** ** Assembly *)

Section Properties.

Context (PLAYER_PROJECTILE_DRAW_ORDER MUZZLE_FLASH_DRAW_ORDER
         EFFECT_DRAW_ORDER IGNORE_RENDER_SLOT : Z)
        (loadActor : ActorID → option Loader.ActorData)
        (pixelExtentsToTileExtents : Base.Extents → Base.Extents)
        (resolveFrame : Z → SpriteDrawData → option Orientation → option Z).

#[local] Abbreviation adjustedDrawOrder :=
  (adjustedDrawOrder PLAYER_PROJECTILE_DRAW_ORDER MUZZLE_FLASH_DRAW_ORDER
                     EFFECT_DRAW_ORDER).
#[local] Abbreviation loadActorCall := (loadActorCall loadActor).
#[local] Abbreviation assemble :=
  (assemble PLAYER_PROJECTILE_DRAW_ORDER MUZZLE_FLASH_DRAW_ORDER
            EFFECT_DRAW_ORDER loadActor).
#[local] Abbreviation createOrFindData :=
  (createOrFindData PLAYER_PROJECTILE_DRAW_ORDER MUZZLE_FLASH_DRAW_ORDER
                    EFFECT_DRAW_ORDER loadActor).
#[local] Abbreviation createSprite :=
  (createSprite PLAYER_PROJECTILE_DRAW_ORDER MUZZLE_FLASH_DRAW_ORDER
                EFFECT_DRAW_ORDER IGNORE_RENDER_SLOT loadActor).
#[local] Abbreviation configureSprite := (configureSprite IGNORE_RENDER_SLOT).
#[local] Abbreviation actorFrameRect :=
  (actorFrameRect PLAYER_PROJECTILE_DRAW_ORDER MUZZLE_FLASH_DRAW_ORDER
                  EFFECT_DRAW_ORDER loadActor pixelExtentsToTileExtents
                  resolveFrame).
#[local] Abbreviation step :=
  (step PLAYER_PROJECTILE_DRAW_ORDER MUZZLE_FLASH_DRAW_ORDER
        EFFECT_DRAW_ORDER loadActor).
#[local] Abbreviation later :=
  (later PLAYER_PROJECTILE_DRAW_ORDER MUZZLE_FLASH_DRAW_ORDER
         EFFECT_DRAW_ORDER loadActor).

(** The parts that the package supplies for a list of identifiers. *)
#[local] Abbreviation supplies ids actorParts :=
  (Forall2 (λ id actorData, loadActor id = Some actorData) ids actorParts).

Lemma mapM_createFrameDrawData frames w :
  ∃ w', mapM createFrameDrawData frames w
          = Returned (frameDrawData <$> frames) w'
        ∧ mSpriteDataCache w' = mSpriteDataCache w.
Proof.
  revert w. induction frames as [|frameData frames IH]; intros w; simpl.
  - by eexists.
  - rewrite bind_run, createFrameDrawData_run, bind_run.
    edestruct IH as (w' & -> & Hcache). rewrite ret_run.
    eexists. split; [reflexivity | by rewrite Hcache].
Qed.

Lemma appendPart_run s actorData w :
  ∃ w', appendPart s actorData w
          = Returned
              (mkLocals
                 (drawFrames s ++ (frameDrawData <$> Loader.mFrames actorData))
                 (Loader.mDrawIndex actorData)
                 (int.of_size (length (Loader.mFrames actorData)))
                 (framesToRender s ++ [lastFrameCount s])) w'
        ∧ mSpriteDataCache w' = mSpriteDataCache w.
Proof.
  unfold appendPart. rewrite bind_run.
  destruct (mapM_createFrameDrawData (Loader.mFrames actorData) w)
    as (w' & -> & Hcache).
  by exists w'.
Qed.

Lemma assemblyLoop_run actorParts :
  ∀ s w,
    ∃ s' w',
      foldlM appendPart s actorParts w = Returned s' w'
      ∧ mSpriteDataCache w' = mSpriteDataCache w
      ∧ drawFrames s' = drawFrames s ++ concatenated actorParts
      ∧ lastDrawOrder s'
          = default (lastDrawOrder s) (Loader.mDrawIndex <$> last actorParts)
      ∧ framesToRender s'
          = framesToRender s
              ++ take (length actorParts)
                   (lastFrameCount s
                      :: ((λ actorData,
                             int.of_size (length (Loader.mFrames actorData)))
                            <$> actorParts)).
Proof.
  induction actorParts as [|actorData actorParts IH]; intros s w.
  - exists s, w. simpl. by rewrite !app_nil_r.
  - simpl foldlM. rewrite bind_run.
    destruct (appendPart_run s actorData w) as (w1 & -> & Hcache1).
    edestruct IH as (s' & w' & -> & Hcache & Hframes & Horder & Hrender).
    exists s', w'. split; [done|]. split; [congruence|].
    rewrite Hframes, Horder, Hrender. simpl.
    rewrite <- !app_assoc. split; [done|]. split; [|done].
    rewrite last_cons. by destruct (last actorParts).
Qed.

Lemma loadActorCall_run partId w :
  loadActorCall partId w =
    let w' := mkWorld (mSpriteDataCache w) (LoadActor partId :: calls w) in
    match loadActor partId with
    | Some actorData => Returned actorData w'
    | None => Thrown w'
    end.
Proof.
  unfold loadActorCall. rewrite bind_run. simpl.
  by destruct (loadActor partId).
Qed.

Lemma keepsCache_loadActorCall partId : keepsCache (loadActorCall partId).
Proof.
  intros w. rewrite loadActorCall_run. simpl.
  by destruct (loadActor partId).
Qed.

Lemma loadAll_Returned ids :
  ∀ w actorParts w',
    mapM loadActorCall ids w = Returned actorParts w' →
    supplies ids actorParts ∧ mSpriteDataCache w' = mSpriteDataCache w.
Proof.
  induction ids as [|id ids IH]; intros w actorParts w'; simpl.
  - intros [= <- <-]. by split.
  - intros (actorData & w1 & Hload & H)%bind_Returned.
    apply bind_Returned in H as (rest & w2 & Hrest & [= <- <-]).
    rewrite loadActorCall_run in Hload. simpl in Hload.
    destruct (loadActor id) as [loaded|] eqn:Hid; [|done].
    injection Hload as <- <-.
    apply IH in Hrest as [Hrest Hcache].
    split; [by constructor | by rewrite Hcache].
Qed.

Lemma loadAll_run ids actorParts :
  supplies ids actorParts →
  ∀ w, ∃ w', mapM loadActorCall ids w = Returned actorParts w'
             ∧ mSpriteDataCache w' = mSpriteDataCache w.
Proof.
  induction 1 as [|id actorData ids actorParts Hid _ IH]; intros w; simpl.
  - by exists w.
  - rewrite bind_run, loadActorCall_run, Hid. simpl. rewrite bind_run.
    edestruct IH as (w' & -> & Hcache). rewrite ret_run.
    eexists. split; [reflexivity | by rewrite Hcache].
Qed.

Lemma assemble_Returned mainId w data w' :
  mSpriteDataCache w !! mainId = None →
  assemble mainId w = Returned data w' →
  ∃ actorParts frames,
    supplies (actorIDListForActor mainId) actorParts
    ∧ (∃ w1 w2, applyTweaks (concatenated actorParts) mainId actorParts w1
                  = Returned frames w2)
    ∧ data = mkSpriteData
               (mkSpriteDrawData frames
                  (orientationOffsetForActor mainId)
                  (frameMapForActor mainId)
                  (adjustedDrawOrder mainId (lastDrawIndex actorParts)))
               (recorded actorParts)
    ∧ mSpriteDataCache w' = <[mainId := data]> (mSpriteDataCache w).
Proof.
  intros Hmiss H. unfold assemble, transformed in H.
  apply bind_Returned in H as (actorParts & w1 & Hload & H).
  apply loadAll_Returned in Hload as [Hsupplied Hcache1].
  apply bind_Returned in H as (s & w2 & Hloop & H).
  destruct (assemblyLoop_run actorParts (mkLocals [] 0 0 []) w1)
    as (s' & w2' & Heq & Hcache2 & Hframes & Horder & Hrender).
  rewrite Heq in Hloop. injection Hloop as <- <-.
  apply bind_Returned in H as (frames & w3 & Htweaks & Hemplace).
  pose proof (keepsCache_applyTweaks (drawFrames s') mainId actorParts w2')
    as Hcache3.
  rewrite Htweaks in Hcache3.
  unfold emplace in Hemplace.
  rewrite Hcache3, Hcache2, Hcache1, Hmiss in Hemplace.
  injection Hemplace as <- <-.
  exists actorParts, frames. simpl in *.
  rewrite Hframes in Htweaks.
  split; [done|]. split; [by eauto|].
  rewrite Horder, Hrender. split; [done|]. reflexivity.
Qed.

Lemma assemble_Thrown mainId w w' :
  assemble mainId w = Thrown w' →
  mSpriteDataCache w' = mSpriteDataCache w.
Proof.
  unfold assemble, transformed.
  intros [Hload | (actorParts & w1 & Hload & H)]%bind_Thrown.
  - pose proof (keepsCache_mapM loadActorCall (actorIDListForActor mainId)
                  keepsCache_loadActorCall w) as Hcache.
    by rewrite Hload in Hcache.
  - exfalso.
    destruct (assemblyLoop_run actorParts (mkLocals [] 0 0 []) w1)
      as (s' & w2 & Heq & _).
    apply bind_Thrown in H as [H | (s & w2' & _ & H)]; [congruence|].
    apply bind_Thrown in H as [H | (frames & w3 & _ & H)].
    + by apply neverThrows_applyTweaks in H.
    + unfold emplace in H. by destruct (mSpriteDataCache w3 !! mainId).
Qed.

(** A cache entry is what the assembly of its key produces from the parts
    that the package supplies. *)
#[local] Abbreviation assembledFrom mainId data :=
  (∃ actorParts frames,
     supplies (actorIDListForActor mainId) actorParts
     ∧ (∃ w1 w2, applyTweaks (concatenated actorParts) mainId actorParts w1
                   = Returned frames w2)
     ∧ data = mkSpriteData
                (mkSpriteDrawData frames
                   (orientationOffsetForActor mainId)
                   (frameMapForActor mainId)
                   (adjustedDrawOrder mainId (lastDrawIndex actorParts)))
                (recorded actorParts)).

#[local] Abbreviation cacheAssembled w :=
  (∀ mainId data,
     mSpriteDataCache w !! mainId = Some data → assembledFrom mainId data).

Lemma createOrFindData_hit mainId data w :
  mSpriteDataCache w !! mainId = Some data →
  createOrFindData mainId w = Returned data w.
Proof. intros H. unfold createOrFindData. by rewrite H. Qed.

Lemma createOrFindData_miss mainId w :
  mSpriteDataCache w !! mainId = None →
  createOrFindData mainId w = assemble mainId w.
Proof. intros H. unfold createOrFindData. by rewrite H. Qed.

Lemma createOrFindData_Returned mainId w data w' :
  createOrFindData mainId w = Returned data w' →
  mSpriteDataCache w' !! mainId = Some data
  ∧ (∀ key entry, mSpriteDataCache w !! key = Some entry →
                  mSpriteDataCache w' !! key = Some entry)
  ∧ (cacheAssembled w → cacheAssembled w').
Proof.
  destruct (mSpriteDataCache w !! mainId) as [cached|] eqn:Hlookup.
  - rewrite (createOrFindData_hit _ _ _ Hlookup). intros [= <- <-]. done.
  - rewrite createOrFindData_miss by done. intros H.
    destruct (assemble_Returned _ _ _ _ Hlookup H)
      as (actorParts & frames & Hparts & Htweaks & Hdata & Hcache).
    rewrite Hcache. split; [by rewrite lookup_insert_eq|]. split.
    + intros key entry Hkey. rewrite lookup_insert_ne; [done|].
      intros <-. congruence.
    + intros Hinv key entry.
      destruct (decide (mainId = key)) as [<- | Hne].
      * rewrite lookup_insert_eq. intros [= <-]. eauto.
      * rewrite lookup_insert_ne by done. apply Hinv.
Qed.

Lemma createOrFindData_Thrown mainId w w' :
  createOrFindData mainId w = Thrown w' →
  mSpriteDataCache w' = mSpriteDataCache w.
Proof.
  unfold createOrFindData.
  destruct (mSpriteDataCache w !! mainId); [done|]. apply assemble_Thrown.
Qed.

Lemma step_keeps w w' key entry :
  step w w' →
  mSpriteDataCache w !! key = Some entry →
  mSpriteDataCache w' !! key = Some entry.
Proof.
  intros [mainId data ? ? H | mainId ? ? H] Hkey.
  - by apply (createOrFindData_Returned _ _ _ _ H).
  - by rewrite (createOrFindData_Thrown _ _ _ H).
Qed.

Lemma later_keeps w w' key entry :
  later w w' →
  mSpriteDataCache w !! key = Some entry →
  mSpriteDataCache w' !! key = Some entry.
Proof. induction 1; eauto using step_keeps. Qed.

Lemma step_assembled w w' : step w w' → cacheAssembled w → cacheAssembled w'.
Proof.
  intros [mainId data ? ? H | mainId ? ? H] Hinv.
  - by apply (createOrFindData_Returned _ _ _ _ H).
  - by rewrite (createOrFindData_Thrown _ _ _ H).
Qed.

Lemma later_assembled w w' :
  later w w' → cacheAssembled w → cacheAssembled w'.
Proof. induction 1; eauto using step_assembled. Qed.

Lemma assemble_run mainId actorParts (P : list SpriteFrame → Prop) w :
  mSpriteDataCache w !! mainId = None →
  supplies (actorIDListForActor mainId) actorParts →
  (∀ w1, ∃ frames w2,
     applyTweaks (concatenated actorParts) mainId actorParts w1
       = Returned frames w2 ∧ P frames) →
  ∃ frames w',
    assemble mainId w
      = Returned
          (mkSpriteData
             (mkSpriteDrawData frames
                (orientationOffsetForActor mainId)
                (frameMapForActor mainId)
                (adjustedDrawOrder mainId (lastDrawIndex actorParts)))
             (recorded actorParts)) w'
    ∧ P frames.
Proof.
  intros Hmiss Hparts Htweaks. unfold assemble, transformed.
  rewrite bind_run.
  destruct (loadAll_run _ _ Hparts w) as (w1 & -> & Hcache1).
  rewrite bind_run.
  destruct (assemblyLoop_run actorParts (mkLocals [] 0 0 []) w1)
    as (s & w2 & -> & Hcache2 & Hframes & Horder & Hrender).
  simpl in Hframes, Horder, Hrender. rewrite bind_run, Hframes.
  destruct (Htweaks w2) as (frames & w3 & Heq & HP).
  pose proof (keepsCache_applyTweaks (concatenated actorParts) mainId
                actorParts w2) as Hcache3.
  rewrite Heq in *. unfold emplace.
  rewrite Hcache3, Hcache2, Hcache1, Hmiss, Horder, Hrender.
  by eexists _, _.
Qed.

(** ** The default visible frames *)

Lemma configureSprite_pointer sprite actorID :
  mpDrawData (configureSprite sprite actorID) = mpDrawData sprite.
Proof. by destruct actorID. Qed.

Lemma configureSprite_table sprite actorID frames :
  (actorID, frames) ∈ defaultVisibleFrames IGNORE_RENDER_SLOT →
  mFramesToRender (configureSprite sprite actorID) = frames.
Proof.
  intros H%list_elem_of_In. simpl in H.
  repeat (destruct H as [[= <- <-] | H]; [reflexivity|]).
  destruct H.
Qed.

Lemma configureSprite_default sprite actorID :
  actorID ∉ (defaultVisibleFrames IGNORE_RENDER_SLOT).*1 →
  configureSprite sprite actorID = sprite.
Proof.
  intros H. destruct sprite.
  destruct actorID; try reflexivity;
    exfalso; apply H, list_elem_of_In; simpl;
    repeat first [ left; reflexivity | right ].
Qed.

Lemma createSprite_run id w :
  createSprite id w =
    match createOrFindData id w with
    | Returned data w' =>
        Returned
          (configureSprite (mkSprite id (mInitialFramesToRender data)) id) w'
    | Thrown w' => Thrown w'
    | Undefined => Undefined
    end.
Proof. reflexivity. Qed.

(** ** Memoization *)

(** C7.  The cache memoizes.  Once [createOrFindData] has returned an entry
    for an identifier, any later call for it, whatever other identifiers were
    requested in between, returns that same entry and leaves the factory as
    it is: nothing is loaded, no texture is created, nothing is assembled or
    checked again.  The sprites that [createSprite] makes of the identifier
    before and after are equal, and both point to the draw data of that one
    entry. *)
Theorem createOrFindData_memoizes mainId w data w1 w2 :
  createOrFindData mainId w = Returned data w1 →
  later w1 w2 →
  createOrFindData mainId w2 = Returned data w2
  ∧ ∃ sprite,
      createSprite mainId w = Returned sprite w1
      ∧ createSprite mainId w2 = Returned sprite w2
      ∧ deref w1 (mpDrawData sprite) = Some (mDrawData data)
      ∧ deref w2 (mpDrawData sprite) = Some (mDrawData data).
Proof.
  intros Hfirst Hlater.
  destruct (createOrFindData_Returned _ _ _ _ Hfirst) as (Hcached & _).
  pose proof (later_keeps _ _ _ _ Hlater Hcached) as Hstill.
  pose proof (createOrFindData_hit _ _ _ Hstill) as Hsecond.
  split; [done|].
  exists (configureSprite (mkSprite mainId (mInitialFramesToRender data)) mainId).
  rewrite !createSprite_run, Hfirst, Hsecond, configureSprite_pointer.
  unfold deref. cbn [mpDrawData]. by rewrite Hcached, Hstill.
Qed.

(** C9.  For every entry of the default-visible-frames table, the sprite
    that [createSprite] returns for the entry's identifier has exactly the
    entry's list as its frames to render, in the entry's order and with the
    skip marker where the table has it; for the lava fountain, which a custom
    render function draws, the list is empty. *)
Theorem createSprite_default_visible_frames id frames w sprite w' :
  (id, frames) ∈ defaultVisibleFrames IGNORE_RENDER_SLOT →
  createSprite id w = Returned sprite w' →
  mFramesToRender sprite = frames
  ∧ (id = Lava_fountain → mFramesToRender sprite = []).
Proof.
  intros Hentry. rewrite createSprite_run.
  destruct (createOrFindData id w) as [data w1 | |]; [|done..].
  intros [= <- <-]. split; [by apply configureSprite_table|].
  intros ->. reflexivity.
Qed.

Lemma length_recorded actorParts :
  length (recorded actorParts) = length actorParts.
Proof.
  unfold recorded. rewrite length_take. simpl. rewrite length_fmap. lia.
Qed.

(** For every identifier that the default-visible-frames table does not
    list, in a factory that started empty, the sprite returned by
    [createSprite] renders the list that assembly recorded in the cache
    entry, whatever that list holds: it has one entry for each part that the
    resolver names, and is exactly frame 0 when the identifier has a single
    part. *)
Lemma createSprite_renders_recorded_list id w sprite w' :
  id ∉ (defaultVisibleFrames IGNORE_RENDER_SLOT).*1 →
  later newFactory w →
  createSprite id w = Returned sprite w' →
  ∃ data actorParts,
    mSpriteDataCache w' !! id = Some data
    ∧ supplies (actorIDListForActor id) actorParts
    ∧ mInitialFramesToRender data = recorded actorParts
    ∧ mFramesToRender sprite = mInitialFramesToRender data
    ∧ length (mFramesToRender sprite) = length (actorIDListForActor id)
    ∧ (length (actorIDListForActor id) = 1%nat →
       mFramesToRender sprite = [0]).
Proof.
  intros Habsent Hlater. rewrite createSprite_run.
  destruct (createOrFindData id w) as [data w1 | |] eqn:Hcall; [|done..].
  intros [= <- <-]. rewrite configureSprite_default by done. simpl.
  destruct (createOrFindData_Returned _ _ _ _ Hcall) as (Hcached & _ & Hinv).
  destruct (Hinv (later_assembled _ _ Hlater ltac:(by intros ? ? ?)) _ _ Hcached)
    as (actorParts & frames & Hparts & _ & ->).
  eexists _, actorParts. split; [done|]. split; [done|]. split; [done|].
  split; [done|].
  simpl. rewrite length_recorded, <- (Forall2_length _ _ _ Hparts).
  split; [done|]. intros Hone.
  destruct actorParts as [|actorData [|? ?]];
    apply Forall2_length in Hparts; simpl in Hparts; try lia.
  reflexivity.
Qed.

(** ** The tweak rules *)

Lemma bomb_rule_run frames actorParts w :
  (4 ≤ length frames)%nat →
  applyTweaks frames Bomb_dropping_spaceship actorParts w
    = Returned (take 4 (alter (offset_plus (Base.mkVector 2 0)) 3%nat frames)) w.
Proof.
  intros Hlen. rewrite applyTweaks_rule.
  by rewrite bind_run, update_Some, unchecked_Some, erase_from_Some
    by (rewrite ?length_alter; lia).
Qed.

(** C8.  The rule of the bomb-dropping spaceship removes every frame after
    index 3: whenever the concatenated sequence has at least four frames, the
    rule returns a sequence of exactly four, whose first three frames are
    untouched, and changes nothing in the factory. *)
Theorem truncation_leaves_four_frames frames actorParts w :
  (4 ≤ length frames)%nat →
  ∃ frames',
    applyTweaks frames Bomb_dropping_spaceship actorParts w
      = Returned frames' w
    ∧ length frames' = 4%nat
    ∧ take 3 frames' = take 3 frames.
Proof.
  intros Hlen. rewrite bomb_rule_run by done.
  eexists. split; [reflexivity|].
  rewrite length_take_le by (rewrite length_alter; lia). split; [done|].
  rewrite take_take. change (3 `min` 4)%nat with 3%nat.
  by rewrite take_alter.
Qed.

Lemma bomb_ship_assembled_with_four_frames w ship bomb :
  mSpriteDataCache w !! Bomb_dropping_spaceship = None →
  loadActor Bomb_dropping_spaceship = Some ship →
  loadActor Napalm_bomb = Some bomb →
  (4 ≤ length (Loader.mFrames ship) + length (Loader.mFrames bomb))%nat →
  ∃ data w',
    createOrFindData Bomb_dropping_spaceship w = Returned data w'
    ∧ length (mFrames (mDrawData data)) = 4%nat.
Proof.
  intros Hmiss Hship Hbomb Hlen. rewrite createOrFindData_miss by done.
  destruct (assemble_run Bomb_dropping_spaceship [ship; bomb]
              (λ frames, length frames = 4%nat) w) as (frames & w' & -> & HP).
  - done.
  - by repeat constructor.
  - intros w1.
    assert (4 ≤ length (concatenated [ship; bomb]))%nat as Hfour.
    { unfold concatenated. simpl. rewrite !length_app, !length_fmap. simpl. lia. }
    rewrite bomb_rule_run by done. eexists _, _. split; [reflexivity|].
    rewrite length_take_le; [done|]. by rewrite length_alter.
  - by eexists _, _.
Qed.

Lemma add_one_in_range (z : Z) :
  int.min_int ≤ z < int.max_int → int.add z 1 = z + 1.
Proof.
  intros H. unfold int.add. apply wrap_in_range.
  unfold int.in_range, int.min_int, int.max_int in *. lia.
Qed.

(** C4, as the code has it.  For each of the four identifiers of Duke's
    ship, assembled from the parts the package supplies for
    [Dukes_ship_LEFT], [Dukes_ship_RIGHT] and [Dukes_ship_exhaust_flames]
    with 2, 2 and 6 frames, the frame sequence after the tweaks has exactly
    12 frames.  The frames at positions 8 and 9 have the image of the frames
    at positions 4 and 5, the first two frames of the third part (the exhaust
    flames facing down), not of positions 2 and 3; their X offset is greater
    by exactly 1 than that of positions 4 and 5, and their Y offset is the
    same. *)
Theorem dukes_ship_flame_copies id w left right flames :
  id ∈ [ Dukes_ship_LEFT; Dukes_ship_RIGHT;
         Dukes_ship_after_exiting_LEFT; Dukes_ship_after_exiting_RIGHT ] →
  mSpriteDataCache w !! id = None →
  loadActor Dukes_ship_LEFT = Some left →
  loadActor Dukes_ship_RIGHT = Some right →
  loadActor Dukes_ship_exhaust_flames = Some flames →
  length (Loader.mFrames left) = 2%nat →
  length (Loader.mFrames right) = 2%nat →
  length (Loader.mFrames flames) = 6%nat →
  (∀ frame, frame ∈ Loader.mFrames flames →
            int.min_int ≤ Base.x (Loader.mDrawOffset frame) < int.max_int) →
  ∃ data w',
    createOrFindData id w = Returned data w'
    ∧ length (mFrames (mDrawData data)) = 12%nat
    ∧ ∀ i, (i < 2)%nat →
        ∃ copy original,
          mFrames (mDrawData data) !! (8 + i)%nat = Some copy
          ∧ mFrames (mDrawData data) !! (4 + i)%nat = Some original
          ∧ mImage copy = mImage original
          ∧ Base.x (mDrawOffset copy) = Base.x (mDrawOffset original) + 1
          ∧ Base.y (mDrawOffset copy) = Base.y (mDrawOffset original).
Proof.
  intros Hid Hmiss Hleft Hright Hflames Hl Hr Hf Hx.
  rewrite createOrFindData_miss by done.
  destruct (Loader.mFrames left) as [|l0 [|l1 [|]]] eqn:El; try done.
  destruct (Loader.mFrames right) as [|r0 [|r1 [|]]] eqn:Er; try done.
  destruct (Loader.mFrames flames) as [|f0 [|f1 [|f2 [|f3 [|f4 [|f5 [|]]]]]]]
    eqn:Ef; try done.
  assert (actorIDListForActor id
          = [Dukes_ship_LEFT; Dukes_ship_RIGHT; Dukes_ship_exhaust_flames])
    as Hlist.
  { apply list_elem_of_In in Hid. simpl in Hid.
    by destruct Hid as [<- | [<- | [<- | [<- | []]]]]. }
  set (P := λ frames : list SpriteFrame,
         length frames = 12%nat
         ∧ ∀ i, (i < 2)%nat →
             ∃ copy original,
               frames !! (8 + i)%nat = Some copy
               ∧ frames !! (4 + i)%nat = Some original
               ∧ mImage copy = mImage original
               ∧ Base.x (mDrawOffset copy)
                   = Base.x (mDrawOffset original) + 1
               ∧ Base.y (mDrawOffset copy) = Base.y (mDrawOffset original)).
  destruct (assemble_run id [left; right; flames] P w)
    as (frames & w' & -> & HP).
  - done.
  - rewrite Hlist. by repeat constructor.
  - intros w1.
    assert (concatenated [left; right; flames]
            = frameDrawData <$> [l0; l1; r0; r1; f0; f1; f2; f3; f4; f5])
      as ->.
    { unfold concatenated. simpl. by rewrite El, Er, Ef. }
    destruct (tweakDukesShip_Returned
                (frameDrawData <$> [l0; l1; r0; r1; f0; f1; f2; f3; f4; f5])
                [left; right; flames] flames f0 f1 w1)
      as (w2 & Heq & _); [simpl; lia | done | by rewrite Ef..|].
    exists (take 8 (frameDrawData <$> [l0; l1; r0; r1; f0; f1; f2; f3; f4; f5])
              ++ x_plus 1 (frameDrawData f0) :: x_plus 1 (frameDrawData f1)
              :: drop 8 (frameDrawData <$>
                           [l0; l1; r0; r1; f0; f1; f2; f3; f4; f5])), w2.
    split.
    + rewrite applyTweaks_rule.
      apply list_elem_of_In in Hid. simpl in Hid.
      by destruct Hid as [<- | [<- | [<- | [<- | []]]]].
    + split; [reflexivity|]. intros i Hi.
      destruct i as [|[|]]; [| |lia]; simpl; eexists _, _;
        (split; [reflexivity|]; split; [reflexivity|]; split; [reflexivity|];
         split; [|reflexivity]);
        apply add_one_in_range, Hx, list_elem_of_In; simpl; auto.
  - eexists _, w'. split; [reflexivity | exact HP].
Qed.

Lemma subscript_int_None {A} (v : list A) (i : Z) :
  Vec.subscript_int v i = None ↔ ¬ (0 ≤ i < Z.of_nat (length v)).
Proof.
  unfold Vec.subscript_int. case_decide.
  - rewrite lookup_ge_None. lia.
  - split; [lia | done].
Qed.

Lemma actorFrameRect_hit id frame data realFrame w :
  mSpriteDataCache w !! id = Some data →
  resolveFrame 0 (mDrawData data) None = Some realFrame →
  actorFrameRect id frame w =
    match Vec.subscript_int (mFrames (mDrawData data)) realFrame with
    | Some frameData =>
        Returned
          (Base.mkRect (mDrawOffset frameData)
             (pixelExtentsToTileExtents (extents (mImage frameData)))) w
    | None => Undefined
    end.
Proof.
  intros Hhit Hresolve. unfold actorFrameRect.
  rewrite bind_run, (createOrFindData_hit _ _ _ Hhit), Hresolve.
  rewrite ret_bind, bind_run. unfold unchecked.
  by destruct (Vec.subscript_int _ _).
Qed.

(** Whatever the resolution of virtual frames is, the rectangle that
    [actorFrameRect] returns does not depend on its [frame] argument. *)
Lemma actorFrameRect_frame_irrelevant id frame frame' w :
  actorFrameRect id frame w = actorFrameRect id frame' w.
Proof. reflexivity. Qed.

(** C5, as the code has it.  No index is checked and no consistency error
    is raised.  [applyTweaks] never raises.  When an index that the
    identifier's rule touches lies outside the frame sequence or outside the
    part it copies from, it reads or writes outside a vector, which is
    undefined; when every such index lies inside, and every draw offset is
    at least two away from both ends of the range of [int], so that the
    rule's arithmetic cannot overflow, it returns.  [actorFrameRect], for a
    cached identifier whose virtual frame 0 resolves to a real index, never
    raises either: it returns when that index is inside the frame sequence
    and otherwise reads outside it. *)
Theorem indices_are_not_checked frames actorId actorParts id frame w :
  neverThrows (applyTweaks frames actorId actorParts)
  ∧ (¬ tweakInBounds frames actorId actorParts →
     applyTweaks frames actorId actorParts w = Undefined)
  ∧ (tweakInBounds frames actorId actorParts →
     offsetsMovable frames actorParts →
     ∃ frames' w',
       applyTweaks frames actorId actorParts w = Returned frames' w')
  ∧ (∀ data realFrame,
       mSpriteDataCache w !! id = Some data →
       resolveFrame 0 (mDrawData data) None = Some realFrame →
       (∀ w', actorFrameRect id frame w ≠ Thrown w')
       ∧ (actorFrameRect id frame w = Undefined
          ↔ ¬ (0 ≤ realFrame < Z.of_nat (length (mFrames (mDrawData data)))))).
Proof.
  split; [apply neverThrows_applyTweaks|].
  split; [apply applyTweaks_Undefined|].
  split.
  - intros Hbounds _. by apply applyTweaks_Returned.
  - intros data realFrame Hhit Hresolve.
    rewrite (actorFrameRect_hit _ _ _ _ _ Hhit Hresolve).
    rewrite <- subscript_int_None.
    destruct (Vec.subscript_int _ _); split; try done.
Qed.

(** ** The remap tables *)

(** C3, as the code has it.  The two mechanisms are not exclusive.  Exactly
    six identifiers have a remap table: the spider, the unicycle bot and the
    four identifiers of Duke's ship; each of them has an orientation offset
    too, and its table is twice as long as the offset.  Exactly twelve more
    identifiers have an orientation offset, and these have no table.  Every
    other identifier has neither, and then every virtual frame is its own
    real frame, also for the entry that assembly caches under it. *)
Theorem remap_table_comes_with_offset id :
  (id ∈ remappedActors ↔ frameMapForActor id ≠ [])
  ∧ (id ∈ remappedActors ++ offsetOnlyActors
     ↔ orientationOffsetForActor id ≠ None)
  ∧ (id ∈ remappedActors →
     ∃ offset, orientationOffsetForActor id = Some offset
               ∧ Z.of_nat (length (frameMapForActor id)) = 2 * offset)
  ∧ (id ∈ offsetOnlyActors →
     orientationOffsetForActor id ≠ None ∧ frameMapForActor id = [])
  ∧ (id ∉ remappedActors ++ offsetOnlyActors →
     orientationOffsetForActor id = None
     ∧ frameMapForActor id = []
     ∧ (∀ frames drawOrder virtualFrame orientation,
          virtualToRealFrame virtualFrame
            (mkSpriteDrawData frames (orientationOffsetForActor id)
                              (frameMapForActor id) drawOrder)
            orientation
          = Some virtualFrame)
     ∧ (∀ w data virtualFrame orientation,
          later newFactory w →
          mSpriteDataCache w !! id = Some data →
          virtualToRealFrame virtualFrame (mDrawData data) orientation
          = Some virtualFrame)).
Proof.
  assert (id ∈ remappedActors ↔ frameMapForActor id ≠ []) as Htable.
  { destruct id; (split; [intros Hin; first [done | not_in_category Hin]
                         | intros Hne; first [solve [in_category] | done]]). }
  assert (id ∈ remappedActors ++ offsetOnlyActors
          ↔ orientationOffsetForActor id ≠ None) as Hoffset.
  { destruct id; (split; [intros Hin; first [done | not_in_category Hin]
                         | intros Hne; first [solve [in_category] | done]]). }
  split; [exact Htable|]. split; [exact Hoffset|].
  split; [|split].
  - intros Hin. apply Htable in Hin. destruct id; try done; by eexists.
  - intros Hin. split.
    + apply Hoffset, elem_of_app. by right.
    + destruct id; first [done | not_in_category Hin].
  - intros Hout.
    assert (orientationOffsetForActor id = None) as Hnone.
    { destruct (orientationOffsetForActor id) eqn:Heq; [|done].
      destruct Hout. apply Hoffset. congruence. }
    assert (frameMapForActor id = []) as Hempty.
    { destruct (frameMapForActor id) eqn:Heq; [done|].
      destruct Hout. apply elem_of_app. left. apply Htable. congruence. }
    split; [done|]. split; [done|]. split.
    + intros. by rewrite Hnone, Hempty.
    + intros w data virtualFrame orientation Hlater Hcached.
      destruct (later_assembled _ _ Hlater ltac:(by intros ? ? ?)
                  _ _ Hcached)
        as (actorParts & frames & _ & _ & ->).
      simpl. by rewrite Hnone, Hempty.
Qed.

(** ** The draw order *)

Lemma scale_in_range (z : Z) : int.in_range (z * 10) → scale z = z * 10.
Proof. intros H. unfold scale, int.mul, SCALE_FACTOR. by apply wrap_in_range. Qed.

(** C6.  With a base draw order whose tenfold (and tenfold less one) is an
    [int]: an identifier outside the special categories gets ten times the
    base order; the napalm bomb, the part that the bomb-dropping spaceship
    drops, gets ten times the base order less one; a player projectile, a
    muzzle flash, an effect or a score number gets ten times the constant of
    its category, whatever the base order.  So base 5 gives 50, and 49 for
    the bomb. *)
Theorem adjustedDrawOrder_classifies id baseDrawOrder :
  int.min_int < baseDrawOrder * 10 ≤ int.max_int →
  (id ∈ playerProjectiles →
   adjustedDrawOrder id baseDrawOrder = int.mul PLAYER_PROJECTILE_DRAW_ORDER 10)
  ∧ (id ∈ muzzleFlashes →
     adjustedDrawOrder id baseDrawOrder = int.mul MUZZLE_FLASH_DRAW_ORDER 10)
  ∧ (id ∈ effects ++ scoreNumbers →
     adjustedDrawOrder id baseDrawOrder = int.mul EFFECT_DRAW_ORDER 10)
  ∧ (id = Napalm_bomb →
     adjustedDrawOrder id baseDrawOrder = baseDrawOrder * 10 - 1)
  ∧ (id ∉ specialCategories → id ≠ Napalm_bomb →
     adjustedDrawOrder id baseDrawOrder = baseDrawOrder * 10).
Proof.
  intros Hrange.
  assert (scale baseDrawOrder = baseDrawOrder * 10) as Hscale.
  { apply scale_in_range. unfold int.in_range. lia. }
  assert (int.sub (baseDrawOrder * 10) 1 = baseDrawOrder * 10 - 1) as Hless.
  { apply wrap_in_range. unfold int.in_range. lia. }
  repeat split.
  - intros H. destruct id; first [reflexivity | not_in_category H].
  - intros H. destruct id; first [reflexivity | not_in_category H].
  - intros H. destruct id; first [reflexivity | not_in_category H].
  - intros ->. simpl. by rewrite Hscale.
  - intros Hgeneric Hbomb.
    destruct id; simpl;
      first [ exact Hscale | done | exfalso; apply Hgeneric; in_category ].
Qed.

End Properties.

(** * The factory on the small asset package *)

(** C1.  The skeleton of the small package has two frames.  Asked for the
    rectangle of frame 1, [actorFrameRect] returns the offset and size of
    frame 0, the same as when asked for frame 0; resolving the virtual frame
    that was asked for gives the offset and size of frame 1. *)
Theorem actorFrameRect_returns_frame_zero :
  Demo.value (Demo.actorFrameRect Skeleton 1 newFactory)
    = Some (Base.mkRect (Base.mkVector 20 200) (Base.mkExtents 21 2))
  ∧ Demo.actorFrameRect Skeleton 1 newFactory
      = Demo.actorFrameRect Skeleton 0 newFactory
  ∧ Demo.value (Demo.actorFrameRectOfFrame Skeleton 1 newFactory)
      = Some (Base.mkRect (Base.mkVector 21 210) (Base.mkExtents 22 2)).
Proof.
  split; [|split].
  - vm_compute. reflexivity.
  - reflexivity.
  - vm_compute. reflexivity.
Qed.

(** The recorded list against the starting indices of the parts: they
    agree for one part and for two, and part company at the third. *)
Lemma recorded_one_part actorData :
  recorded [actorData] = [0] ∧ partBoundaries [actorData] = [0].
Proof. by split. Qed.

Lemma recorded_two_parts first second :
  int.in_range (Z.of_nat (length (Loader.mFrames first))) →
  recorded [first; second] = partBoundaries [first; second].
Proof.
  intros Hcount. unfold recorded, partBoundaries, int.of_size. simpl.
  by rewrite wrap_in_range.
Qed.

Lemma recorded_third_entry first second third rest :
  recorded (first :: second :: third :: rest) !! 2%nat
    = Some (int.of_size (length (Loader.mFrames second)))
  ∧ partBoundaries (first :: second :: third :: rest) !! 2%nat
      = Some (Z.of_nat (length (Loader.mFrames first))
              + Z.of_nat (length (Loader.mFrames second))).
Proof. by split. Qed.

(** C2.  A messenger drone is assembled from eight parts; in the small
    package each has two frames.  The list recorded during assembly holds,
    after the leading 0, the frame count of the part before (2 every time),
    where the starting indices of the parts are 0, 2, 4, ..., 14. *)
Theorem recorded_list_is_not_cumulative :
  ∃ data w' actorParts,
    Demo.createOrFindData Messenger_drone_1 newFactory = Returned data w'
    ∧ Forall2 (λ id actorData, Demo.loadActor id = Some actorData)
              (actorIDListForActor Messenger_drone_1) actorParts
    ∧ mInitialFramesToRender data = [0; 2; 2; 2; 2; 2; 2; 2]
    ∧ partBoundaries actorParts = [0; 2; 4; 6; 8; 10; 12; 14].
Proof.
  eexists _, _, (replicate 8 (Demo.actor 5 [20; 21])).
  split; [vm_compute; reflexivity|].
  split; [by repeat constructor|].
  split; reflexivity.
Qed.

(** C10.  A messenger drone, which the default-visible-frames table does not
    list, is assembled from eight parts; in the small package each has two
    frames.  Its sprite renders the list recorded during assembly, which has
    one entry per part but names frame 2 seven times, where the first frames
    of the eight parts are 0, 2, 4, ..., 14.  A skeleton, which has a single
    part, renders exactly frame 0. *)
Theorem drone_sprite_renders_frame_two_seven_times :
  (Messenger_drone_1 ∉ (defaultVisibleFrames Demo.IGNORE_RENDER_SLOT).*1)
  ∧ (∃ sprite w' actorParts,
       Demo.createSprite Messenger_drone_1 newFactory = Returned sprite w'
       ∧ Forall2 (λ id actorData, Demo.loadActor id = Some actorData)
                 (actorIDListForActor Messenger_drone_1) actorParts
       ∧ mFramesToRender sprite = [0; 2; 2; 2; 2; 2; 2; 2]
       ∧ partBoundaries actorParts = [0; 2; 4; 6; 8; 10; 12; 14]
       ∧ ¬ NoDup (mFramesToRender sprite))
  ∧ (∃ sprite w',
       Demo.createSprite Skeleton newFactory = Returned sprite w'
       ∧ actorIDListForActor Skeleton = [Skeleton]
       ∧ mFramesToRender sprite = [0]).
Proof.
  split; [intros Hin; not_in_category Hin|]. split.
  - eexists _, _, (replicate 8 (Demo.actor 5 [20; 21])).
    split; [vm_compute; reflexivity|].
    split; [by repeat constructor|].
    split; [reflexivity|]. split; [reflexivity|].
    simpl. intros Hnodup. apply NoDup_cons in Hnodup as [_ Hnodup].
    apply NoDup_cons in Hnodup as [Hnotin _].
    apply Hnotin. by constructor.
  - eexists _, _. split; [vm_compute; reflexivity|]. by split.
Qed.

(** Counterexample to C3: the spider has the orientation offset 13 and a
    remap table of 26 entries. *)
Lemma spider_has_offset_and_table :
  orientationOffsetForActor Spider = Some 13
  ∧ length (frameMapForActor Spider) = 26%nat
  ∧ ¬ (orientationOffsetForActor Spider ≠ None → frameMapForActor Spider = []).
Proof.
  split; [reflexivity|]. split; [reflexivity|].
  intros H. by specialize (H ltac:(done)).
Qed.

(** Counterexample to C4: with the ship of the small package, whose ten
    source frames all differ, the assembled sequence has 12 frames, but the
    frames at positions 8 and 9 have neither the images of the frames at
    positions 2 and 3 nor an X offset one greater than theirs. *)
Lemma ship_copies_are_not_of_frames_2_and_3 :
  ∃ data w',
    Demo.createOrFindData Dukes_ship_LEFT newFactory = Returned data w'
    ∧ length (mFrames (mDrawData data)) = 12%nat
    ∧ mImage <$> mFrames (mDrawData data) !! 8%nat
        ≠ mImage <$> mFrames (mDrawData data) !! 2%nat
    ∧ mImage <$> mFrames (mDrawData data) !! 9%nat
        ≠ mImage <$> mFrames (mDrawData data) !! 3%nat
    ∧ (Base.x ∘ mDrawOffset) <$> mFrames (mDrawData data) !! 8%nat
        ≠ (λ frame, Base.x (mDrawOffset frame) + 1)
            <$> mFrames (mDrawData data) !! 2%nat
    ∧ (Base.x ∘ mDrawOffset) <$> mFrames (mDrawData data) !! 9%nat
        ≠ (λ frame, Base.x (mDrawOffset frame) + 1)
            <$> mFrames (mDrawData data) !! 3%nat.
Proof.
  eexists _, _. split; [vm_compute; reflexivity|].
  repeat split; discriminate.
Qed.

(** Counterexample to C5.  The reactor fire of the small package has no
    frame: its rule writes [frames[0]] of the empty sequence, so the tweak
    pass, and with it the assembly, ends in undefined behaviour, not in an
    error.  The smoke puff has no frame either and no rule: it is assembled,
    and [actorFrameRect] then reads [mFrames[0]] of its empty sequence. *)
Lemma missing_frames_are_read_unchecked :
  ¬ tweakInBounds [] Reactor_fire_LEFT [Demo.actor 2 []]
  ∧ applyTweaks [] Reactor_fire_LEFT [Demo.actor 2 []] newFactory = Undefined
  ∧ Demo.createOrFindData Reactor_fire_LEFT newFactory = Undefined
  ∧ (∃ data w',
       Demo.createOrFindData Smoke_puff_FX newFactory = Returned data w'
       ∧ mFrames (mDrawData data) = [])
  ∧ Demo.actorFrameRect Smoke_puff_FX 0 newFactory = Undefined.
Proof.
  split; [simpl; lia|]. split; [reflexivity|]. split; [reflexivity|].
  split; [|reflexivity].
  eexists _, _. split; [vm_compute; reflexivity | reflexivity].
Qed.

(** ** The theorems at work *)

(** Witness of C4: the ship of the small package. *)
Lemma dukes_ship_flame_copies_witness :
  ∃ data w',
    Demo.createOrFindData Dukes_ship_after_exiting_RIGHT newFactory
      = Returned data w'
    ∧ length (mFrames (mDrawData data)) = 12%nat
    ∧ ∀ i, (i < 2)%nat →
        ∃ copy original,
          mFrames (mDrawData data) !! (8 + i)%nat = Some copy
          ∧ mFrames (mDrawData data) !! (4 + i)%nat = Some original
          ∧ mImage copy = mImage original
          ∧ Base.x (mDrawOffset copy) = Base.x (mDrawOffset original) + 1
          ∧ Base.y (mDrawOffset copy) = Base.y (mDrawOffset original).
Proof.
  apply (dukes_ship_flame_copies
           Demo.PLAYER_PROJECTILE_DRAW_ORDER Demo.MUZZLE_FLASH_DRAW_ORDER
           Demo.EFFECT_DRAW_ORDER Demo.loadActor
           Dukes_ship_after_exiting_RIGHT newFactory
           (Demo.actor 3 [0; 1]) (Demo.actor 3 [2; 3])
           (Demo.actor 4 [4; 5; 6; 7; 8; 9])).
  - in_category.
  - reflexivity.
  - reflexivity.
  - reflexivity.
  - reflexivity.
  - reflexivity.
  - reflexivity.
  - reflexivity.
  - intros frame Hframe. apply list_elem_of_In in Hframe. simpl in Hframe.
    repeat (destruct Hframe as [<- | Hframe]; [by vm_compute|]).
    destruct Hframe.
Defined.

(** Witness of C6: the base order 5 gives 50 for the skeleton and 49 for the
    napalm bomb. *)
Lemma adjustedDrawOrder_classifies_witness :
  int.min_int < 5 * 10 ≤ int.max_int
  ∧ adjustedDrawOrder Demo.PLAYER_PROJECTILE_DRAW_ORDER
      Demo.MUZZLE_FLASH_DRAW_ORDER Demo.EFFECT_DRAW_ORDER Skeleton 5 = 50
  ∧ adjustedDrawOrder Demo.PLAYER_PROJECTILE_DRAW_ORDER
      Demo.MUZZLE_FLASH_DRAW_ORDER Demo.EFFECT_DRAW_ORDER Napalm_bomb 5 = 49.
Proof.
  assert (int.min_int < 5 * 10 ≤ int.max_int) as Hrange by by vm_compute.
  split; [exact Hrange|]. split.
  - apply (adjustedDrawOrder_classifies
             Demo.PLAYER_PROJECTILE_DRAW_ORDER Demo.MUZZLE_FLASH_DRAW_ORDER
             Demo.EFFECT_DRAW_ORDER Skeleton 5 Hrange).
    + intros Hin. not_in_category Hin.
    + discriminate.
  - by apply (adjustedDrawOrder_classifies
                Demo.PLAYER_PROJECTILE_DRAW_ORDER Demo.MUZZLE_FLASH_DRAW_ORDER
                Demo.EFFECT_DRAW_ORDER Napalm_bomb 5 Hrange).
Defined.

(** Witness of C7: the ship is assembled, the skeleton is requested, and the
    ship is requested again. *)
Lemma createOrFindData_memoizes_witness :
  ∃ data w1 w2,
    Demo.createOrFindData Dukes_ship_LEFT newFactory = Returned data w1
    ∧ later Demo.PLAYER_PROJECTILE_DRAW_ORDER Demo.MUZZLE_FLASH_DRAW_ORDER
            Demo.EFFECT_DRAW_ORDER Demo.loadActor w1 w2
    ∧ calls w1 ≠ calls w2
    ∧ Demo.createOrFindData Dukes_ship_LEFT w2 = Returned data w2
    ∧ ∃ sprite,
        Demo.createSprite Dukes_ship_LEFT newFactory = Returned sprite w1
        ∧ Demo.createSprite Dukes_ship_LEFT w2 = Returned sprite w2
        ∧ deref w1 (mpDrawData sprite) = Some (mDrawData data)
        ∧ deref w2 (mpDrawData sprite) = Some (mDrawData data).
Proof.
  eexists _, _, _.
  split; [vm_compute; reflexivity|].
  split; [eapply rtc_once, (step_returned _ _ _ _ Skeleton);
          vm_compute; reflexivity|].
  split; [discriminate|].
  eapply (createOrFindData_memoizes
            Demo.PLAYER_PROJECTILE_DRAW_ORDER Demo.MUZZLE_FLASH_DRAW_ORDER
            Demo.EFFECT_DRAW_ORDER Demo.IGNORE_RENDER_SLOT Demo.loadActor
            Dukes_ship_LEFT newFactory).
  - vm_compute. reflexivity.
  - eapply rtc_once, (step_returned _ _ _ _ Skeleton). vm_compute. reflexivity.
Defined.

(** Witness of C8: a sequence of six frames. *)
Lemma truncation_leaves_four_frames_witness :
  (4 ≤ length Demo.sixFrames)%nat
  ∧ ∃ frames',
      applyTweaks Demo.sixFrames Bomb_dropping_spaceship [] newFactory
        = Returned frames' newFactory
      ∧ length frames' = 4%nat
      ∧ take 3 frames' = take 3 Demo.sixFrames.
Proof.
  assert (4 ≤ length Demo.sixFrames)%nat as Hlen by (simpl; lia).
  split; [exact Hlen|].
  exact (truncation_leaves_four_frames Demo.sixFrames [] newFactory Hlen).
Defined.

(** Witness of C9: the third boss, whose list starts with the skip marker. *)
Lemma createSprite_default_visible_frames_witness :
  (BOSS_Episode_3, [Demo.IGNORE_RENDER_SLOT; 1; 0])
    ∈ defaultVisibleFrames Demo.IGNORE_RENDER_SLOT
  ∧ ∃ sprite w',
      Demo.createSprite BOSS_Episode_3 newFactory = Returned sprite w'
      ∧ mFramesToRender sprite = [Demo.IGNORE_RENDER_SLOT; 1; 0]
      ∧ (BOSS_Episode_3 = Lava_fountain → mFramesToRender sprite = []).
Proof.
  assert ((BOSS_Episode_3, [Demo.IGNORE_RENDER_SLOT; 1; 0])
            ∈ defaultVisibleFrames Demo.IGNORE_RENDER_SLOT) as Hentry
    by in_category.
  split; [exact Hentry|].
  eexists _, _. split; [vm_compute; reflexivity|].
  eapply (createSprite_default_visible_frames
            Demo.PLAYER_PROJECTILE_DRAW_ORDER Demo.MUZZLE_FLASH_DRAW_ORDER
            Demo.EFFECT_DRAW_ORDER Demo.IGNORE_RENDER_SLOT Demo.loadActor
            BOSS_Episode_3 _ newFactory _ _ Hentry).
  vm_compute. reflexivity.
Defined.

(** Witness of C5: the rule of the bomb-dropping spaceship on six frames
    returns, and on three frames it writes outside the sequence. *)
Lemma indices_are_not_checked_witness :
  tweakInBounds Demo.sixFrames Bomb_dropping_spaceship []
  ∧ offsetsMovable Demo.sixFrames []
  ∧ (∃ frames' w',
       applyTweaks Demo.sixFrames Bomb_dropping_spaceship [] newFactory
         = Returned frames' w')
  ∧ ¬ tweakInBounds (take 3 Demo.sixFrames) Bomb_dropping_spaceship []
  ∧ applyTweaks (take 3 Demo.sixFrames) Bomb_dropping_spaceship [] newFactory
      = Undefined.
Proof.
  assert (tweakInBounds Demo.sixFrames Bomb_dropping_spaceship []) as Hin
    by (simpl; lia).
  assert (offsetsMovable Demo.sixFrames []) as Hmovable
    by (split; repeat constructor; by vm_compute).
  assert (¬ tweakInBounds (take 3 Demo.sixFrames) Bomb_dropping_spaceship [])
    as Hout by (simpl; lia).
  split; [exact Hin|]. split; [exact Hmovable|].
  split; [|split; [exact Hout|]].
  - exact (proj1 (proj2 (proj2
             (indices_are_not_checked
                Demo.PLAYER_PROJECTILE_DRAW_ORDER Demo.MUZZLE_FLASH_DRAW_ORDER
                Demo.EFFECT_DRAW_ORDER Demo.loadActor
                Demo.pixelExtentsToTileExtents virtualToRealFrame
                Demo.sixFrames Bomb_dropping_spaceship [] Skeleton 0
                newFactory))) Hin Hmovable).
  - exact (proj1 (proj2
             (indices_are_not_checked
                Demo.PLAYER_PROJECTILE_DRAW_ORDER Demo.MUZZLE_FLASH_DRAW_ORDER
                Demo.EFFECT_DRAW_ORDER Demo.loadActor
                Demo.pixelExtentsToTileExtents virtualToRealFrame
                (take 3 Demo.sixFrames) Bomb_dropping_spaceship [] Skeleton 0
                newFactory)) Hout).
Defined.

(** * Further properties *)

(** ** The part resolver *)

Lemma actorIDListForActor_nonempty ID : actorIDListForActor ID ≠ [].
Proof. by destruct ID. Qed.

(** X1.  Every identifier, named in the file or not, resolves to at least
    one and at most eight parts, and no part occurs twice in its list: an
    assembly never loads a part a second time. *)
Theorem actorIDListForActor_parts ID :
  (1 ≤ length (actorIDListForActor ID) ≤ 8)%nat
  ∧ NoDup (actorIDListForActor ID).
Proof.
  split.
  - destruct ID; simpl; lia.
  - destruct ID; simpl;
      repeat (apply NoDup_cons; split;
              [intros Hin; not_in_category Hin|]);
      apply NoDup_nil_2.
Qed.

(** ** The tweak rules, frame by frame *)

Lemma fmap_alter_same {A B} (p : A → B) (g : A → A) (i : nat) (v : list A) :
  (∀ a, p (g a) = p a) → p <$> alter g i v = p <$> v.
Proof.
  intros Hp. apply list_eq. intros j. rewrite !list_lookup_fmap.
  destruct (decide (i = j)) as [<- | Hne].
  - rewrite list_lookup_alter_eq. destruct (v !! i); simpl; by rewrite ?Hp.
  - by rewrite list_lookup_alter_ne.
Qed.

Lemma update_inv {A} (v v' : list A) (i : nat) (g : A → A) :
  Vec.update v i g = Some v' → (i < length v)%nat ∧ v' = alter g i v.
Proof. unfold Vec.update. case_decide; naive_solver. Qed.

Lemma erase_from_inv {A} (v v' : list A) (i : nat) :
  Vec.erase_from v i = Some v' → (i ≤ length v)%nat ∧ v' = take i v.
Proof. unfold Vec.erase_from. case_decide; naive_solver. Qed.

Lemma foldlM_update_same {A B} (p : A → B) (g : A → A) (c : nat → bool)
    (l : list nat) :
  (∀ a, p (g a) = p a) →
  ∀ v v',
    foldlM (λ v i, if c i then Vec.update v i g else Some v) v l = Some v' →
    p <$> v' = p <$> v.
Proof.
  intros Hp. induction l as [|i l IH]; intros v v'; simpl.
  - by intros [= ->].
  - destruct (c i).
    + destruct (Vec.update v i g) as [v1|] eqn:Hupdate; [|done]. simpl.
      apply update_inv in Hupdate as [_ ->]. intros H%IH.
      by rewrite H, fmap_alter_same.
    + simpl. apply IH.
Qed.

Lemma foldlM_update_lookup {A} (g : A → A) (c : nat → bool) (l : list nat) :
  NoDup l →
  ∀ v v',
    foldlM (λ v i, if c i then Vec.update v i g else Some v) v l = Some v' →
    ∀ j, v' !! j = (if bool_decide (j ∈ l) && c j then g else id) <$> v !! j.
Proof.
  induction 1 as [|i l Hfresh _ IH]; intros v v'; simpl.
  - intros [= ->] j. by rewrite option_fmap_id.
  - destruct (c i) eqn:Hc.
    + destruct (Vec.update v i g) as [v1|] eqn:Hupdate; [|done]. simpl.
      apply update_inv in Hupdate as [_ ->]. intros H j.
      rewrite (IH _ _ H j). destruct (decide (i = j)) as [<- | Hne].
      * rewrite list_lookup_alter_eq, (bool_decide_eq_false_2 (i ∈ l)) by done.
        rewrite (bool_decide_eq_true_2 (i ∈ i :: l)), Hc by left. simpl.
        by rewrite option_fmap_id.
      * rewrite list_lookup_alter_ne by done.
        by rewrite (bool_decide_ext (j ∈ i :: l) (j ∈ l))
          by (rewrite elem_of_cons; split; [by intros [? | ?] | by right]).
    + simpl. intros H j. rewrite (IH _ _ H j).
      destruct (decide (i = j)) as [<- | Hne].
      * by rewrite Hc, !andb_false_r.
      * by rewrite (bool_decide_ext (j ∈ i :: l) (j ∈ l))
          by (rewrite elem_of_cons; split; [by intros [? | ?] | by right]).
Qed.

Lemma unchecked_Returned {A} (o : option A) w a w' :
  unchecked o w = Returned a w' → o = Some a ∧ w' = w.
Proof. unfold unchecked. destruct o; naive_solver. Qed.

(** X2.  The rule of the player sprite, on a sequence of at least 39
    frames: it returns a sequence of the same length in which every frame
    below index 39 other than 35 and 36 has its X offset lowered by 1, and
    every other frame is as it was; the factory is left alone. *)
Theorem duke_rule_shifts_frames frames actorId actorParts w :
  actorId ∈ [Duke_LEFT; Duke_RIGHT] →
  (39 ≤ length frames)%nat →
  ∃ frames',
    applyTweaks frames actorId actorParts w = Returned frames' w
    ∧ length frames' = length frames
    ∧ ∀ i, frames' !! i
           = (if bool_decide (i < 39 ∧ i ≠ 35 ∧ i ≠ 36)%nat
              then x_minus 1 else id) <$> frames !! i.
Proof.
  intros Hid Hlen.
  destruct (tweakDuke_Some frames Hlen) as (frames' & Heq & Hlength).
  exists frames'. split; [|split; [done|]].
  - rewrite applyTweaks_rule. apply list_elem_of_In in Hid. simpl in Hid.
    destruct Hid as [<- | [<- | []]]; by rewrite Heq.
  - intros i.
    rewrite (foldlM_update_lookup (x_minus 1)
               (λ i, negb (i =? 35)%nat && negb (i =? 36)%nat)
               (seq 0 39) (NoDup_seq 0 39) frames frames' Heq i).
    f_equal.
    destruct (decide (i < 39 ∧ i ≠ 35 ∧ i ≠ 36)%nat) as [Hin | Hout].
    + rewrite (bool_decide_eq_true_2 _ Hin), bool_decide_eq_true_2
        by (apply elem_of_seq; lia).
      destruct Hin as (_ & ?%Nat.eqb_neq & ?%Nat.eqb_neq). by rewrite H, H0.
    + rewrite (bool_decide_eq_false_2 _ Hout).
      destruct (decide (i < 39)%nat) as [Hlt | Hge].
      * assert (i = 35 ∨ i = 36)%nat as [-> | ->] by lia;
          by rewrite andb_comm.
      * rewrite bool_decide_eq_false_2; [done|].
        rewrite elem_of_seq. lia.
Qed.

Lemma x_minus_one_exact frame :
  int.min_int < Base.x (mDrawOffset frame) ≤ int.max_int →
  x_minus 1 frame
    = with_offset (λ v, Base.mkVector (Base.x v - 1) (Base.y v)) frame.
Proof.
  intros Hrange. unfold x_minus, with_offset, int.sub.
  by rewrite wrap_in_range by (unfold int.in_range; lia).
Qed.

(** X3.  The rule of the radar computer, on a sequence of any length, the
    empty one included, whose frames from index 8 on have an X offset above
    the least [int]: it returns a sequence in which every frame from index 8
    on has its X offset lowered by 1, without wrap-around, and the first
    eight frames are as they were. *)
Theorem radar_rule_shifts_frames frames actorParts w :
  Forall (λ frame, int.min_int < Base.x (mDrawOffset frame) ≤ int.max_int)
         (drop 8 frames) →
  ∃ frames',
    applyTweaks frames Radar_computer_terminal actorParts w
      = Returned frames' w
    ∧ length frames' = length frames
    ∧ ∀ i, frames' !! i
           = (if bool_decide (8 ≤ i)%nat
              then with_offset (λ v, Base.mkVector (Base.x v - 1) (Base.y v))
              else id)
               <$> frames !! i.
Proof.
  intros Hrange.
  destruct (tweakRadar_Some frames) as (frames' & Heq & Hlength).
  exists frames'. split; [|split; [done|]].
  - rewrite applyTweaks_rule. by rewrite Heq.
  - intros i.
    rewrite (foldlM_update_lookup (x_minus 1) (λ _, true)
               (seq 8 (length frames - 8)) (NoDup_seq _ _) frames frames'
               Heq i).
    rewrite andb_true_r.
    destruct (frames !! i) as [frame|] eqn:Hframe; [|done].
    apply lookup_lt_Some in Hframe as Hlt.
    rewrite (bool_decide_ext (i ∈ seq 8 (length frames - 8)) (8 ≤ i)%nat)
      by (rewrite elem_of_seq; lia).
    case_bool_decide as Hi; [|done]. simpl. f_equal.
    apply x_minus_one_exact.
    apply (proj1 (Forall_lookup _ _) Hrange (i - 8)%nat).
    rewrite lookup_drop, <- Hframe. f_equal. lia.
Qed.

(** X4.  The rule of the watchbot container carrier, on a sequence of at
    least three frames: it returns the first two frames as they were,
    followed by the third with its Y offset lowered by 2 and its X offset
    (plus zero) and image kept, and nothing after it. *)
Theorem watchbot_carrier_rule frames actorParts w first second third :
  frames !! 0%nat = Some first →
  frames !! 1%nat = Some second →
  frames !! 2%nat = Some third →
  applyTweaks frames Watchbot_container_carrier actorParts w
    = Returned
        [ first; second;
          mkSpriteFrame (mImage third)
            (Base.mkVector (int.add (Base.x (mDrawOffset third)) 0)
                           (int.add (Base.y (mDrawOffset third)) (-2))) ]
        w.
Proof.
  intros H0 H1 H2. rewrite applyTweaks_rule.
  destruct frames as [|f0 [|f1 [|f2 rest]]]; try done.
  injection H0 as ->. injection H1 as ->. injection H2 as ->.
  rewrite bind_run, update_Some, unchecked_Some, erase_from_Some
    by (simpl; lia).
  reflexivity.
Qed.

(** X5.  No rule but that of Duke's ship touches an image or adds a frame.
    For every other identifier, when [applyTweaks] returns, the factory is
    as before and the images of the returned frames are the images of the
    given frames, in order, cut after the returned length; the length is
    unchanged unless the identifier is one of the two with a truncating
    rule. *)
Theorem applyTweaks_keeps_images frames actorId actorParts w frames' w' :
  actorId ∉ shipActors →
  applyTweaks frames actorId actorParts w = Returned frames' w' →
  w' = w
  ∧ mImage <$> frames' = take (length frames') (mImage <$> frames)
  ∧ (actorId ∉ [Bomb_dropping_spaceship; Watchbot_container_carrier] →
     length frames' = length frames).
Proof.
  intros Hship. rewrite applyTweaks_rule.
  assert (∀ g : SpriteFrame → SpriteFrame,
            (∀ a, mImage (g a) = mImage a) →
            ∀ i, Vec.update frames i g = Some frames' →
                 mImage <$> frames' = mImage <$> frames) as Hupdate.
  { intros g Hg i [_ ->]%update_inv. by apply fmap_alter_same. }
  assert (mImage <$> frames' = mImage <$> frames →
          mImage <$> frames' = take (length frames') (mImage <$> frames)
          ∧ (actorId ∉ [Bomb_dropping_spaceship; Watchbot_container_carrier] →
             length frames' = length frames)) as Hsame.
  { intros Himages.
    assert (length frames' = length frames) as Hlen
      by (rewrite <- (length_fmap mImage frames'), Himages;
          apply length_fmap).
    split; [|done].
    by rewrite Himages, Hlen, <- (length_fmap mImage frames), firstn_all. }
  assert (∀ n g, (∀ a, mImage (g a) = mImage a) →
            (frames1 ← unchecked (Vec.update frames n g);
             unchecked (Vec.erase_from frames1 (S n))) w = Returned frames' w' →
            w' = w
            ∧ mImage <$> frames' = take (length frames') (mImage <$> frames))
    as Htruncate.
  { intros n g Hg (frames1 & w1 & [Hu ->]%unchecked_Returned
                     & [He ->]%unchecked_Returned)%bind_Returned.
    apply update_inv in Hu as [Hlt ->].
    apply erase_from_inv in He as [Hle ->]. split; [done|].
    rewrite length_take_le by done.
    by rewrite fmap_take, fmap_alter_same. }
  destruct actorId;
    try solve [intros [= <- <-]; split; [done|]; by apply Hsame];
    try solve [exfalso; apply Hship; in_category].
  - intros [Heq ->]%unchecked_Returned. split; [done|]. apply Hsame.
    by apply (foldlM_update_same mImage (x_minus 1)
                (λ i, negb (i =? 35)%nat && negb (i =? 36)%nat) (seq 0 39)).
  - intros [Heq ->]%unchecked_Returned. split; [done|]. apply Hsame.
    by apply (foldlM_update_same mImage (x_minus 1)
                (λ i, negb (i =? 35)%nat && negb (i =? 36)%nat) (seq 0 39)).
  - intros [Heq ->]%unchecked_Returned. split; [done|]. apply Hsame.
    by apply (Hupdate (x_set 0) ltac:(done) 0%nat).
  - intros [Heq ->]%unchecked_Returned. split; [done|]. apply Hsame.
    by apply (Hupdate (x_set 0) ltac:(done) 0%nat).
  - intros [Heq ->]%unchecked_Returned. split; [done|]. apply Hsame.
    by apply (foldlM_update_same mImage (x_minus 1) (λ _, true)
                (seq 8 (length frames - 8))).
  - intros H. apply Htruncate in H as [-> Himages]; [|done].
    split; [done|]. split; [done|]. intros Hnot. exfalso. apply Hnot.
    in_category.
  - intros H. apply Htruncate in H as [-> Himages]; [|done].
    split; [done|]. split; [done|]. intros Hnot. exfalso. apply Hnot.
    in_category.
Qed.

(** ** The factory and its collaborators *)

Section Further.

Context (PLAYER_PROJECTILE_DRAW_ORDER MUZZLE_FLASH_DRAW_ORDER
         EFFECT_DRAW_ORDER IGNORE_RENDER_SLOT : Z)
        (loadActor : ActorID → option Loader.ActorData)
        (pixelExtentsToTileExtents : Base.Extents → Base.Extents)
        (resolveFrame : Z → SpriteDrawData → option Orientation → option Z).

#[local] Abbreviation adjustedDrawOrder :=
  (adjustedDrawOrder PLAYER_PROJECTILE_DRAW_ORDER MUZZLE_FLASH_DRAW_ORDER
                     EFFECT_DRAW_ORDER).
#[local] Abbreviation loadActorCall := (loadActorCall loadActor).
#[local] Abbreviation assemble :=
  (assemble PLAYER_PROJECTILE_DRAW_ORDER MUZZLE_FLASH_DRAW_ORDER
            EFFECT_DRAW_ORDER loadActor).
#[local] Abbreviation createOrFindData :=
  (createOrFindData PLAYER_PROJECTILE_DRAW_ORDER MUZZLE_FLASH_DRAW_ORDER
                    EFFECT_DRAW_ORDER loadActor).
#[local] Abbreviation createSprite :=
  (createSprite PLAYER_PROJECTILE_DRAW_ORDER MUZZLE_FLASH_DRAW_ORDER
                EFFECT_DRAW_ORDER IGNORE_RENDER_SLOT loadActor).
#[local] Abbreviation actorFrameRect :=
  (actorFrameRect PLAYER_PROJECTILE_DRAW_ORDER MUZZLE_FLASH_DRAW_ORDER
                  EFFECT_DRAW_ORDER loadActor pixelExtentsToTileExtents
                  resolveFrame).
#[local] Abbreviation later :=
  (later PLAYER_PROJECTILE_DRAW_ORDER MUZZLE_FLASH_DRAW_ORDER
         EFFECT_DRAW_ORDER loadActor).
#[local] Abbreviation supplies ids actorParts :=
  (Forall2 (λ id actorData, loadActor id = Some actorData) ids actorParts).

(** The textures that the loop over the parts creates, oldest first. *)
#[local] Abbreviation uploads actorParts :=
  ((λ frameData, CreateTexture (Loader.mFrameImage frameData))
     <$> (actorParts ≫= Loader.mFrames)).

Lemma loadAll_calls ids :
  ∀ w actorParts w',
    mapM loadActorCall ids w = Returned actorParts w' →
    calls w' = rev (LoadActor <$> ids) ++ calls w.
Proof.
  induction ids as [|id ids IH]; intros w actorParts w'; simpl.
  - by intros [= <- <-].
  - intros (actorData & w1 & Hload & H)%bind_Returned.
    apply bind_Returned in H as (rest & w2 & Hrest & [= <- <-]).
    rewrite loadActorCall_run in Hload. simpl in Hload.
    destruct (loadActor id); [|done]. injection Hload as <- <-.
    rewrite (IH _ _ _ Hrest). simpl. by rewrite <- app_assoc.
Qed.

Lemma loadAll_Thrown ids :
  ∀ w w',
    mapM loadActorCall ids w = Thrown w' →
    ∃ loaded missing rest,
      ids = loaded ++ missing :: rest
      ∧ Forall (λ id, is_Some (loadActor id)) loaded
      ∧ loadActor missing = None
      ∧ calls w' = LoadActor missing :: rev (LoadActor <$> loaded) ++ calls w.
Proof.
  induction ids as [|id ids IH]; intros w w'; simpl; [done|].
  intros [Hload | (actorData & w1 & Hload & H)]%bind_Thrown;
    rewrite loadActorCall_run in Hload; simpl in Hload;
    destruct (loadActor id) as [loaded|] eqn:Hid; try done.
  - injection Hload as <-. by exists [], id, ids.
  - injection Hload as <- <-.
    apply bind_Thrown in H as [H | (? & ? & _ & ?)]; [|done].
    apply IH in H as (before & missing & rest & -> & Hbefore & Hmissing & ->).
    exists (id :: before), missing, rest. split; [done|].
    split; [by constructor|]. split; [done|]. simpl.
    by rewrite <- app_assoc.
Qed.

Lemma loadAll_missing ids :
  Exists (λ id, loadActor id = None) ids →
  ∀ w, ∃ w', mapM loadActorCall ids w = Thrown w'.
Proof.
  induction 1 as [id ids Hid | id ids _ IH]; intros w; simpl;
    rewrite bind_run, loadActorCall_run; simpl.
  - rewrite Hid. by eexists.
  - destruct (loadActor id); [|by eexists].
    rewrite bind_run. edestruct IH as (w' & ->). by eexists.
Qed.

Lemma mapM_createFrameDrawData_calls frames :
  ∀ w w' created,
    mapM createFrameDrawData frames w = Returned created w' →
    calls w'
      = rev ((λ frameData, CreateTexture (Loader.mFrameImage frameData))
               <$> frames) ++ calls w.
Proof.
  induction frames as [|frameData frames IH]; intros w w' created; simpl.
  - by intros [= <- <-].
  - rewrite bind_run, createFrameDrawData_run.
    intros (rest & w2 & Hrest & [= <- <-])%bind_Returned.
    rewrite (IH _ _ _ Hrest). simpl. by rewrite <- app_assoc.
Qed.

Lemma assemblyLoop_calls actorParts :
  ∀ s w s' w',
    foldlM appendPart s actorParts w = Returned s' w' →
    calls w' = rev (uploads actorParts) ++ calls w.
Proof.
  induction actorParts as [|actorData actorParts IH]; intros s w s' w'.
  - by intros [= <- <-].
  - simpl foldlM. intros (s1 & w1 & Hpart & Hrest)%bind_Returned.
    unfold appendPart in Hpart.
    apply bind_Returned in Hpart as (created & w0 & Hcreated & [= <- <-]).
    rewrite (IH _ _ _ _ Hrest), (mapM_createFrameDrawData_calls _ _ _ _ Hcreated).
    simpl. by rewrite fmap_app, rev_app_distr, <- app_assoc.
Qed.

Lemma tweakDukesShip_calls frames actorParts w frames' w' :
  tweakDukesShip frames actorParts w = Returned frames' w' →
  ∃ first second, calls w' = [CreateTexture second; CreateTexture first] ++ calls w.
Proof.
  unfold tweakDukesShip.
  intros (f0 & w0 & [_ ->]%unchecked_Returned & H)%bind_Returned.
  rewrite bind_run, createFrameDrawData_run in H.
  apply bind_Returned in H as (? & ? & [_ ->]%unchecked_Returned & H).
  apply bind_Returned in H as (f1 & ? & [_ ->]%unchecked_Returned & H).
  rewrite bind_run, createFrameDrawData_run in H.
  apply bind_Returned in H as (? & ? & [_ ->]%unchecked_Returned & H).
  apply bind_Returned in H as (? & ? & [_ ->]%unchecked_Returned & H).
  apply unchecked_Returned in H as [_ ->]. by eexists _, _.
Qed.

Lemma applyTweaks_calls frames actorId actorParts w frames' w' :
  applyTweaks frames actorId actorParts w = Returned frames' w' →
  ∃ extra,
    calls w' = (CreateTexture <$> extra) ++ calls w
    ∧ length extra = if bool_decide (actorId ∈ shipActors) then 2%nat else 0%nat.
Proof.
  destruct (decide (actorId ∈ shipActors)) as [Hship | Hother].
  - rewrite (bool_decide_eq_true_2 _ Hship), applyTweaks_rule.
    apply list_elem_of_In in Hship. simpl in Hship.
    destruct Hship as [<- | [<- | [<- | [<- | []]]]];
      intros (first & second & ->)%tweakDukesShip_calls;
      by exists [second; first].
  - rewrite (bool_decide_eq_false_2 _ Hother). intros H.
    exists []. split; [|done].
    rewrite applyTweaks_rule in H.
    destruct actorId;
      try solve [by injection H as <- <-];
      try solve [by apply unchecked_Returned in H as [_ ->]];
      try solve [exfalso; apply Hother; in_category];
      apply bind_Returned in H as (? & ? & [_ ->]%unchecked_Returned & H);
      by apply unchecked_Returned in H as [_ ->].
Qed.

Lemma emplace_run key data w :
  mSpriteDataCache w !! key = None →
  emplace key data w
    = Returned data (mkWorld (<[key := data]> (mSpriteDataCache w)) (calls w)).
Proof. intros H. unfold emplace. by rewrite H. Qed.

Lemma assemble_Thrown_by_load mainId w w' :
  assemble mainId w = Thrown w' →
  mapM loadActorCall (actorIDListForActor mainId) w = Thrown w'.
Proof.
  unfold assemble, transformed.
  intros [H | (actorParts & w1 & _ & H)]%bind_Thrown; [done|]. exfalso.
  destruct (assemblyLoop_run actorParts (mkLocals [] 0 0 []) w1)
    as (s' & w2 & Heq & _).
  apply bind_Thrown in H as [H | (s & w2' & _ & H)]; [congruence|].
  apply bind_Thrown in H as [H | (frames & w3 & _ & H)].
  - by apply neverThrows_applyTweaks in H.
  - unfold emplace in H. by destruct (mSpriteDataCache w3 !! mainId).
Qed.

(** X6.  For an identifier that is not cached, [createOrFindData] raises
    the package's exception exactly when the package lacks one of the parts
    that the resolver names. *)
Theorem createOrFindData_throws_iff_part_missing mainId w :
  mSpriteDataCache w !! mainId = None →
  (∃ w', createOrFindData mainId w = Thrown w')
  ↔ Exists (λ partId, loadActor partId = None) (actorIDListForActor mainId).
Proof.
  intros Hmiss. rewrite createOrFindData_miss by done. split.
  - intros (w' & H%assemble_Thrown_by_load).
    apply loadAll_Thrown in H as (loaded & missing & rest & -> & _ & H & _).
    apply Exists_app. right. by left.
  - intros Hmissing. unfold assemble, transformed.
    destruct (loadAll_missing _ Hmissing w) as (w' & Hthrown).
    exists w'. by rewrite bind_run, Hthrown.
Qed.

(** X7.  When [createOrFindData] raises, nothing was inserted and nothing
    was uploaded: the cache is as before, and the calls it made are the
    loads of the parts before the missing one, in resolver order, and the
    load of the missing part, after which no further part is loaded and no
    texture is created. *)
Theorem createOrFindData_throw_leaves_no_trace mainId w w' :
  createOrFindData mainId w = Thrown w' →
  mSpriteDataCache w' = mSpriteDataCache w
  ∧ ∃ loaded missing rest,
      actorIDListForActor mainId = loaded ++ missing :: rest
      ∧ Forall (λ partId, is_Some (loadActor partId)) loaded
      ∧ loadActor missing = None
      ∧ calls w' = LoadActor missing :: rev (LoadActor <$> loaded) ++ calls w.
Proof.
  intros H. split; [by apply (createOrFindData_Thrown _ _ _ _ _ _ _ H)|].
  unfold createOrFindData in H.
  destruct (mSpriteDataCache w !! mainId); [done|].
  by apply loadAll_Thrown, assemble_Thrown_by_load.
Qed.

(** X8.  A call of [createOrFindData] that returns leaves the cache equal to
    the old cache with the returned entry stored under the requested key:
    no other key is added, removed or changed.  When the key was cached
    already, the returned entry is the cached one and the factory, calls
    included, is as before. *)
Theorem createOrFindData_updates_one_key mainId w data w' :
  createOrFindData mainId w = Returned data w' →
  mSpriteDataCache w' = <[mainId := data]> (mSpriteDataCache w)
  ∧ dom (mSpriteDataCache w') = {[mainId]} ∪ dom (mSpriteDataCache w)
  ∧ (∀ cached, mSpriteDataCache w !! mainId = Some cached →
               data = cached ∧ w' = w).
Proof.
  intros H.
  assert (mSpriteDataCache w' = <[mainId := data]> (mSpriteDataCache w)) as Heq.
  { destruct (mSpriteDataCache w !! mainId) as [cached|] eqn:Hlookup.
    - rewrite (createOrFindData_hit _ _ _ _ _ _ _ Hlookup) in H.
      injection H as <- <-. by rewrite insert_id.
    - rewrite createOrFindData_miss in H by done.
      by destruct (assemble_Returned _ _ _ _ _ _ _ _ Hlookup H)
        as (_ & _ & _ & _ & _ & ?). }
  split; [done|]. split; [by rewrite Heq, dom_insert_L|].
  intros cached Hcached.
  rewrite (createOrFindData_hit _ _ _ _ _ _ _ Hcached) in H.
  by injection H as <- <-.
Qed.

(** X9.  A call of [createOrFindData] that assembles an entry calls the
    collaborators in this order: it loads every part that the resolver
    names, once each and in resolver order; only then it creates one
    texture for every source frame, part by part and frame by frame; and
    last, for Duke's ship alone, the two textures of the copied frames. *)
Theorem createOrFindData_call_order mainId w data w' :
  mSpriteDataCache w !! mainId = None →
  createOrFindData mainId w = Returned data w' →
  ∃ actorParts extra,
    supplies (actorIDListForActor mainId) actorParts
    ∧ calls w'
        = (CreateTexture <$> extra)
            ++ rev (uploads actorParts)
            ++ rev (LoadActor <$> actorIDListForActor mainId)
            ++ calls w
    ∧ length extra
        = if bool_decide (mainId ∈ shipActors) then 2%nat else 0%nat.
Proof.
  intros Hmiss. rewrite createOrFindData_miss by done.
  unfold assemble, transformed.
  intros (actorParts & w1 & Hload & H)%bind_Returned.
  apply bind_Returned in H as (s & w2 & Hloop & H).
  apply bind_Returned in H as (frames & w3 & Htweaks & Hemplace).
  pose proof (loadAll_calls _ _ _ _ Hload) as Hcalls1.
  apply loadAll_Returned in Hload as [Hparts Hcache1].
  pose proof (assemblyLoop_calls _ _ _ _ _ Hloop) as Hcalls2.
  destruct (applyTweaks_calls _ _ _ _ _ _ Htweaks) as (extra & Hcalls3 & Hextra).
  exists actorParts, extra. split; [done|]. split; [|done].
  unfold emplace in Hemplace.
  destruct (mSpriteDataCache w3 !! mainId);
    injection Hemplace as <- <-; simpl; congruence.
Qed.

Lemma supplies_nonempty mainId actorParts :
  supplies (actorIDListForActor mainId) actorParts →
  ∃ lastPart, last actorParts = Some lastPart.
Proof.
  intros H%Forall2_length. pose proof (actorIDListForActor_nonempty mainId).
  destruct actorParts as [|actorData actorParts] using rev_ind.
  - by destruct (actorIDListForActor mainId).
  - exists actorData. apply last_snoc.
Qed.

(** X10.  In a factory that started empty, every cache entry carries the
    orientation offset and the remap table of its key, its recorded list
    starts with 0, and its draw order is the classifier's value for the key
    and the draw index of the last part that the resolver names for it. *)
Theorem cache_entries_follow_their_key mainId data w :
  later newFactory w →
  mSpriteDataCache w !! mainId = Some data →
  mOrientationOffset (mDrawData data) = orientationOffsetForActor mainId
  ∧ mVirtualToRealFrameMap (mDrawData data) = frameMapForActor mainId
  ∧ head (mInitialFramesToRender data) = Some 0
  ∧ ∃ actorParts lastPart,
      supplies (actorIDListForActor mainId) actorParts
      ∧ last actorParts = Some lastPart
      ∧ mDrawOrder (mDrawData data)
          = adjustedDrawOrder mainId (Loader.mDrawIndex lastPart).
Proof.
  intros Hlater Hcached.
  destruct (later_assembled _ _ _ _ _ _ Hlater ltac:(by intros ? ? ?)
              _ _ Hcached)
    as (actorParts & frames & Hparts & _ & ->).
  destruct (supplies_nonempty _ _ Hparts) as (lastPart & Hlast).
  simpl. split; [done|]. split; [done|]. split.
  - unfold recorded. by destruct actorParts.
  - exists actorParts, lastPart. split; [done|]. split; [done|].
    unfold lastDrawIndex. by rewrite Hlast.
Qed.

(** X11.  [actorFrameRect] changes the factory exactly as
    [createOrFindData] does: the entry it assembled stays cached also when
    the query then raises or reads outside the frames, and a failure of the
    assembly is the query's failure.  A rectangle it returns is made of the
    draw offset and the image extents of one of the entry's frames. *)
Theorem actorFrameRect_goes_through_the_cache id frame w :
  match createOrFindData id w with
  | Returned data w1 =>
      match actorFrameRect id frame w with
      | Returned rect w' =>
          w' = w1
          ∧ ∃ frameData,
              frameData ∈ mFrames (mDrawData data)
              ∧ rect = Base.mkRect (mDrawOffset frameData)
                         (pixelExtentsToTileExtents (extents (mImage frameData)))
      | Thrown w' => w' = w1
      | Undefined => True
      end
  | Thrown w1 => actorFrameRect id frame w = Thrown w1
  | Undefined => actorFrameRect id frame w = Undefined
  end.
Proof.
  unfold actorFrameRect. rewrite bind_run.
  destruct (createOrFindData id w) as [data w1 | w1 |]; [|done..].
  destruct (resolveFrame 0 (mDrawData data) None) as [realFrame|].
  - rewrite ret_bind, bind_run. unfold unchecked, Vec.subscript_int.
    case_decide; [|done].
    destruct (mFrames (mDrawData data) !! Z.to_nat realFrame)
      as [frameData|] eqn:Hframe; [|done].
    rewrite ret_run. split; [done|]. exists frameData.
    split; [by eapply list_elem_of_lookup_2 | done].
  - by rewrite bind_run.
Qed.

Lemma applyTweaks_untweaked frames actorId actorParts w :
  actorId ∉ tweakedActors →
  applyTweaks frames actorId actorParts w = Returned frames w.
Proof.
  intros H. rewrite applyTweaks_rule.
  destruct actorId; try reflexivity; exfalso; apply H; in_category.
Qed.

Lemma concatenated_flat actorParts :
  concatenated actorParts = frameDrawData <$> (actorParts ≫= Loader.mFrames).
Proof.
  unfold concatenated. induction actorParts as [|actorData actorParts IH].
  - done.
  - by rewrite !bind_cons, fmap_app, IH.
Qed.

(** X12.  An identifier that [applyTweaks] does not name, not yet cached,
    whose parts the package supplies, is assembled whenever the draw index of
    its last part and the constants of the special categories can be scaled
    without overflow: the frames of the entry are the source frames of the
    parts, part after part in resolver order, each with the texture of its
    image and its authored draw offset unchanged. *)
Theorem untweaked_assembly_concatenates_parts mainId actorParts w :
  scaleDefined PLAYER_PROJECTILE_DRAW_ORDER →
  scaleDefined MUZZLE_FLASH_DRAW_ORDER →
  scaleDefined EFFECT_DRAW_ORDER →
  scaleDefined (lastDrawIndex actorParts) →
  mainId ∉ tweakedActors →
  mSpriteDataCache w !! mainId = None →
  supplies (actorIDListForActor mainId) actorParts →
  ∃ data w',
    createOrFindData mainId w = Returned data w'
    ∧ mFrames (mDrawData data)
        = (λ frameData,
             mkSpriteFrame (mkTexture (Loader.mFrameImage frameData))
                           (Loader.mDrawOffset frameData))
            <$> (actorParts ≫= Loader.mFrames)
    ∧ length (mFrames (mDrawData data))
        = sum_list ((λ actorData, length (Loader.mFrames actorData))
                      <$> actorParts).
Proof.
  intros _ _ _ _ Hplain Hmiss Hparts. rewrite createOrFindData_miss by done.
  destruct (assemble_run PLAYER_PROJECTILE_DRAW_ORDER MUZZLE_FLASH_DRAW_ORDER
              EFFECT_DRAW_ORDER loadActor mainId actorParts
              (λ frames, frames = concatenated actorParts) w Hmiss Hparts)
    as (frames & w' & -> & ->).
  { intros w1. exists (concatenated actorParts), w1.
    by rewrite applyTweaks_untweaked. }
  eexists _, w'. split; [reflexivity|]. simpl.
  rewrite concatenated_flat. split; [done|].
  rewrite length_fmap. clear. induction actorParts as [|? ? IH]; [done|].
  rewrite bind_cons, length_app, IH. done.
Qed.

(** X13.  For each identifier of Duke's ship, assembled from parts of 2, 2
    and 6 frames, the remap table has one entry for every frame of the
    assembled sequence, no entry twice, and every entry is an index inside
    the sequence: each of the twelve frames is the real frame of exactly one
    virtual frame. *)
Theorem ship_frame_map_covers_the_frames id w left right flames :
  id ∈ shipActors →
  mSpriteDataCache w !! id = None →
  loadActor Dukes_ship_LEFT = Some left →
  loadActor Dukes_ship_RIGHT = Some right →
  loadActor Dukes_ship_exhaust_flames = Some flames →
  length (Loader.mFrames left) = 2%nat →
  length (Loader.mFrames right) = 2%nat →
  length (Loader.mFrames flames) = 6%nat →
  ∃ data w',
    createOrFindData id w = Returned data w'
    ∧ length (mVirtualToRealFrameMap (mDrawData data))
        = length (mFrames (mDrawData data))
    ∧ NoDup (mVirtualToRealFrameMap (mDrawData data))
    ∧ Forall (λ real, 0 ≤ real < Z.of_nat (length (mFrames (mDrawData data))))
             (mVirtualToRealFrameMap (mDrawData data)).
Proof.
  intros Hid Hmiss Hleft Hright Hflames Hl Hr Hf.
  rewrite createOrFindData_miss by done.
  assert (actorIDListForActor id
          = [Dukes_ship_LEFT; Dukes_ship_RIGHT; Dukes_ship_exhaust_flames]
          ∧ frameMapForActor id = DUKES_SHIP_FRAME_MAP
          ∧ ∀ frames actorParts w1,
              applyTweaks frames id actorParts w1
                = tweakDukesShip frames actorParts w1) as (Hlist & Hmap & Hrule).
  { apply list_elem_of_In in Hid. simpl in Hid.
    destruct Hid as [<- | [<- | [<- | [<- | []]]]];
      (split; [done|]; split; [done|]; intros; apply applyTweaks_rule). }
  destruct (assemble_run PLAYER_PROJECTILE_DRAW_ORDER MUZZLE_FLASH_DRAW_ORDER
              EFFECT_DRAW_ORDER loadActor id [left; right; flames]
              (λ frames, length frames = 12%nat) w Hmiss)
    as (frames & w' & -> & Htwelve).
  - rewrite Hlist. by repeat constructor.
  - intros w1. rewrite Hrule.
    assert (length (concatenated [left; right; flames]) = 10%nat) as Hten.
    { rewrite concatenated_flat, length_fmap, !bind_cons, !length_app, Hl, Hr, Hf.
      done. }
    destruct (tweakDukesShip_in_bounds (concatenated [left; right; flames])
                [left; right; flames] w1)
      as (frames & w2 & -> & Hlen).
    { split; [lia|]. exists flames. split; [done | lia]. }
    exists frames, w2. split; [done | lia].
  - eexists _, w'. split; [reflexivity|]. simpl. rewrite Hmap, Htwelve.
    split; [done|]. split.
    + by apply (bool_decide_unpack _).
    + by apply (bool_decide_unpack _).
Qed.

Lemma supplies_unique ids :
  ∀ first second, supplies ids first → supplies ids second → first = second.
Proof.
  induction ids as [|id ids IH]; intros first second H1 H2;
    inversion H1; inversion H2; subst; [done|].
  f_equal; [congruence | by apply IH].
Qed.

Lemma tweakDukesShip_unique frames actorParts w1 w2 frames1 frames2 w1' w2' :
  tweakDukesShip frames actorParts w1 = Returned frames1 w1' →
  tweakDukesShip frames actorParts w2 = Returned frames2 w2' →
  frames1 = frames2.
Proof.
  intros H1 H2.
  destruct (decide (8 ≤ length frames)%nat) as [Hlen | Hlen].
  2: { rewrite tweakDukesShip_Undefined in H1; [done|]. by intros [? _]. }
  destruct (actorParts !! 2%nat) as [actorData|] eqn:Hpart.
  2: { rewrite tweakDukesShip_Undefined in H1; [done|].
       intros (_ & ? & ? & _). congruence. }
  destruct (Loader.mFrames actorData) as [|first [|second rest]] eqn:Hframes.
  1, 2: rewrite tweakDukesShip_Undefined in H1; [done|];
        intros (_ & other & Hother & Htwo); rewrite Hpart in Hother;
        injection Hother as <-; rewrite Hframes in Htwo; simpl in Htwo; lia.
  destruct (tweakDukesShip_Returned frames actorParts actorData first second w1)
    as (? & E1 & _); [done | done | by rewrite Hframes..|].
  destruct (tweakDukesShip_Returned frames actorParts actorData first second w2)
    as (? & E2 & _); [done | done | by rewrite Hframes..|].
  congruence.
Qed.

Lemma applyTweaks_unique frames actorId actorParts w1 w2 frames1 frames2 w1' w2' :
  applyTweaks frames actorId actorParts w1 = Returned frames1 w1' →
  applyTweaks frames actorId actorParts w2 = Returned frames2 w2' →
  frames1 = frames2.
Proof.
  rewrite !applyTweaks_rule. intros H1 H2.
  destruct actorId;
    try solve [congruence];
    try solve [apply unchecked_Returned in H1 as [H1 _];
               apply unchecked_Returned in H2 as [H2 _]; congruence];
    try solve [by eapply tweakDukesShip_unique];
    apply bind_Returned in H1 as (a1 & ? & [Ha1 ->]%unchecked_Returned
                                    & [Hb1 _]%unchecked_Returned);
    apply bind_Returned in H2 as (a2 & ? & [Ha2 ->]%unchecked_Returned
                                    & [Hb2 _]%unchecked_Returned);
    congruence.
Qed.

(** X14.  Identifiers that are assembled alike get equal entries.  For each
    of the listed pairs (the two Dukes, the two cats, the two spiked
    creatures, the ship identifiers, the teleporters, the blue guards, the
    enemy laser shots), in a factory that started empty, the entries cached
    under the two identifiers are equal: same frames, offsets, remap data,
    draw order and recorded list. *)
Theorem shared_assemblies_have_equal_entries a b w dataA dataB :
  (a, b) ∈ sharedAssemblies →
  later newFactory w →
  mSpriteDataCache w !! a = Some dataA →
  mSpriteDataCache w !! b = Some dataB →
  dataA = dataB.
Proof.
  intros Hpair Hlater Ha Hb.
  pose proof (later_assembled _ _ _ _ _ _ Hlater ltac:(by intros ? ? ?))
    as Hinv.
  destruct (Hinv _ _ Ha) as (partsA & framesA & HpartsA & (? & ? & HtweakA) & ->).
  destruct (Hinv _ _ Hb) as (partsB & framesB & HpartsB & (? & ? & HtweakB) & ->).
  assert (actorIDListForActor a = actorIDListForActor b
          ∧ orientationOffsetForActor a = orientationOffsetForActor b
          ∧ frameMapForActor a = frameMapForActor b
          ∧ (∀ base, adjustedDrawOrder a base = adjustedDrawOrder b base)
          ∧ ∀ frames actorParts w1,
              applyTweaks frames a actorParts w1
                = applyTweaks frames b actorParts w1)
    as (Hlist & Hoffset & Hmap & Horder & Hrule).
  { apply list_elem_of_In in Hpair. simpl in Hpair.
    repeat (destruct Hpair as [[= <- <-] | Hpair];
            [by repeat split; intros; rewrite ?applyTweaks_rule|]).
    destruct Hpair. }
  rewrite Hlist in HpartsA.
  rewrite (supplies_unique _ _ _ HpartsA HpartsB) in *.
  rewrite Hrule in HtweakA.
  rewrite (applyTweaks_unique _ _ _ _ _ _ _ _ _ HtweakA HtweakB).
  by rewrite Hoffset, Hmap, Horder.
Qed.

Lemma adjustedDrawOrder_generic id baseDrawOrder :
  id ∉ specialCategories → id ≠ Napalm_bomb →
  adjustedDrawOrder id baseDrawOrder = scale baseDrawOrder.
Proof.
  intros Hgeneric Hbomb.
  destruct id; simpl;
    first [ reflexivity | done | exfalso; apply Hgeneric; in_category ].
Qed.

(** X15.  The draw order keeps the order of the base draw orders and puts
    the napalm bomb directly behind its own layer.  For two identifiers
    outside the special categories and base orders whose tenfold is an
    [int], the adjusted order of one is below that of the other exactly when
    its base order is; the bomb's adjusted order is below that of a generic
    actor with the same base order and above that of every generic actor
    with a lower one. *)
Theorem adjustedDrawOrder_keeps_layers first second low high :
  first ∉ specialCategories → first ≠ Napalm_bomb →
  second ∉ specialCategories → second ≠ Napalm_bomb →
  int.min_int < low * 10 ≤ int.max_int →
  int.min_int < high * 10 ≤ int.max_int →
  (adjustedDrawOrder first low < adjustedDrawOrder second high ↔ low < high)
  ∧ adjustedDrawOrder Napalm_bomb high < adjustedDrawOrder first high
  ∧ (low < high →
     adjustedDrawOrder first low < adjustedDrawOrder Napalm_bomb high).
Proof.
  intros Hf1 Hf2 Hs1 Hs2 Hlow Hhigh.
  rewrite (adjustedDrawOrder_generic first low),
    (adjustedDrawOrder_generic second high),
    (adjustedDrawOrder_generic first high) by done.
  simpl. rewrite !scale_in_range by (unfold int.in_range; lia).
  unfold int.sub. rewrite wrap_in_range by (unfold int.in_range; lia).
  unfold int.min_int, int.max_int in *. lia.
Qed.

Lemma loadAll_defined ids : ∀ w, mapM loadActorCall ids w ≠ Undefined.
Proof.
  induction ids as [|id ids IH]; intros w; simpl; [done|].
  rewrite bind_run, loadActorCall_run. simpl.
  destruct (loadActor id); [|done]. rewrite bind_run.
  specialize (IH (mkWorld (mSpriteDataCache w) (LoadActor id :: calls w))).
  by destruct (mapM loadActorCall ids _).
Qed.

(** X16.  With a package whose parts are in range, so that no [int]
    operation of the assembly overflows (the constants of the special
    categories and every draw index can be scaled, and every draw offset is
    at least two away from both ends of the range of [int]),
    [createOrFindData] runs into undefined behaviour exactly when the
    identifier is not cached, the package supplies all its parts, and the
    frames of these parts, concatenated, are too few for the identifier's
    tweak rule (or, for Duke's ship, the third part has fewer than two
    frames): an asset that is too short is never reported, and never
    cached. *)
Theorem createOrFindData_undefined_iff_parts_too_short mainId w :
  scaleDefined PLAYER_PROJECTILE_DRAW_ORDER →
  scaleDefined MUZZLE_FLASH_DRAW_ORDER →
  scaleDefined EFFECT_DRAW_ORDER →
  (∀ id actorData, loadActor id = Some actorData → partInRange actorData) →
  createOrFindData mainId w = Undefined
  ↔ mSpriteDataCache w !! mainId = None
    ∧ ∃ actorParts,
        supplies (actorIDListForActor mainId) actorParts
        ∧ ¬ tweakInBounds (concatenated actorParts) mainId actorParts.
Proof.
  intros _ _ _ _.
  unfold createOrFindData.
  destruct (mSpriteDataCache w !! mainId) as [cached|] eqn:Hlookup.
  { split; [intros [=] | intros [[=] _]]. }
  unfold assemble, transformed. rewrite bind_run. split.
  - destruct (mapM loadActorCall (actorIDListForActor mainId) w)
      as [actorParts w1 | |] eqn:Hload;
      [|done|by apply loadAll_defined in Hload].
    apply loadAll_Returned in Hload as [Hparts _].
    rewrite bind_run.
    destruct (assemblyLoop_run actorParts (mkLocals [] 0 0 []) w1)
      as (s & w2 & -> & _ & Hframes & _).
    simpl in Hframes. rewrite bind_run, Hframes. intros H.
    split; [done|]. exists actorParts. split; [done|]. intros Hbounds.
    destruct (applyTweaks_Returned _ _ _ w2 Hbounds) as (frames & w3 & Heq).
    rewrite Heq in H. unfold emplace in H.
    by destruct (mSpriteDataCache w3 !! mainId).
  - intros (_ & actorParts & Hparts & Hshort).
    destruct (loadAll_run _ _ _ Hparts w) as (w1 & -> & _).
    rewrite bind_run.
    destruct (assemblyLoop_run actorParts (mkLocals [] 0 0 []) w1)
      as (s & w2 & -> & _ & Hframes & _).
    simpl in Hframes.
    by rewrite bind_run, Hframes, applyTweaks_Undefined.
Qed.

End Further.

(** X17.  The rule of Duke's ship inserts and never overwrites: given at
    least eight frames and a third part with two frames, it returns a
    sequence two frames longer in which the first eight frames are where
    and as they were, and every frame from index 8 on is as it was, two
    places further back. *)
Theorem ship_rule_keeps_every_frame frames actorId actorParts actorData w :
  actorId ∈ shipActors →
  (8 ≤ length frames)%nat →
  actorParts !! 2%nat = Some actorData →
  (2 ≤ length (Loader.mFrames actorData))%nat →
  ∃ frames' w',
    applyTweaks frames actorId actorParts w = Returned frames' w'
    ∧ length frames' = (length frames + 2)%nat
    ∧ (∀ i, (i < 8)%nat → frames' !! i = frames !! i)
    ∧ (∀ i, (8 ≤ i)%nat → frames' !! (i + 2)%nat = frames !! i).
Proof.
  intros Hid Hlen Hpart Htwo.
  destruct (Loader.mFrames actorData) as [|first [|second rest]] eqn:Hframes;
    simpl in Htwo; try lia.
  destruct (tweakDukesShip_Returned frames actorParts actorData first second w)
    as (w' & Heq & _); [done | done | by rewrite Hframes..|].
  eexists _, w'. split; [|split; [|split]].
  - rewrite applyTweaks_rule. apply list_elem_of_In in Hid. simpl in Hid.
    by destruct Hid as [<- | [<- | [<- | [<- | []]]]].
  - rewrite length_app, length_take_le by done. cbn [length].
    rewrite length_drop. lia.
  - intros i Hi. rewrite lookup_app_l by (rewrite length_take_le; lia).
    by rewrite lookup_take_lt.
  - intros i Hi. rewrite lookup_app_r by (rewrite length_take_le; lia).
    rewrite length_take_le by done.
    replace (i + 2 - 8)%nat with (S (S (i - 8))) by lia.
    rewrite !lookup_cons_ne_0 by lia. simpl.
    rewrite lookup_drop. f_equal. lia.
Qed.

(** ** The further properties at work *)

(** Witness of X13: the ship of the small package. *)
Lemma ship_frame_map_covers_the_frames_witness :
  ∃ data w',
    Demo.createOrFindData Dukes_ship_RIGHT newFactory = Returned data w'
    ∧ length (mVirtualToRealFrameMap (mDrawData data))
        = length (mFrames (mDrawData data))
    ∧ NoDup (mVirtualToRealFrameMap (mDrawData data))
    ∧ Forall (λ real, 0 ≤ real < Z.of_nat (length (mFrames (mDrawData data))))
             (mVirtualToRealFrameMap (mDrawData data)).
Proof.
  apply (ship_frame_map_covers_the_frames
           Demo.PLAYER_PROJECTILE_DRAW_ORDER Demo.MUZZLE_FLASH_DRAW_ORDER
           Demo.EFFECT_DRAW_ORDER Demo.loadActor Dukes_ship_RIGHT newFactory
           (Demo.actor 3 [0; 1]) (Demo.actor 3 [2; 3])
           (Demo.actor 4 [4; 5; 6; 7; 8; 9]));
    first [ reflexivity | in_category ].
Defined.

(** Witness of X5: the truncating rule of the bomb-dropping spaceship on six
    frames. *)
Lemma applyTweaks_keeps_images_witness :
  (Bomb_dropping_spaceship ∉ shipActors)
  ∧ ∃ frames' w',
      applyTweaks Demo.sixFrames Bomb_dropping_spaceship [] newFactory
        = Returned frames' w'
      ∧ w' = newFactory
      ∧ mImage <$> frames' = take (length frames') (mImage <$> Demo.sixFrames)
      ∧ (Bomb_dropping_spaceship
           ∉ [Bomb_dropping_spaceship; Watchbot_container_carrier] →
         length frames' = length Demo.sixFrames).
Proof.
  assert (Bomb_dropping_spaceship ∉ shipActors) as Hship
    by (intros Hin; not_in_category Hin).
  split; [exact Hship|].
  eexists _, _. split; [vm_compute; reflexivity|].
  apply (applyTweaks_keeps_images Demo.sixFrames Bomb_dropping_spaceship []
           newFactory _ _ Hship).
  vm_compute. reflexivity.
Defined.

(** Witness of X2: the rule of the player sprite on forty frames. *)
Lemma duke_rule_shifts_frames_witness :
  Duke_RIGHT ∈ [Duke_LEFT; Duke_RIGHT]
  ∧ (39 ≤ length Demo.fortyFrames)%nat
  ∧ ∃ frames',
      applyTweaks Demo.fortyFrames Duke_RIGHT [] newFactory
        = Returned frames' newFactory
      ∧ length frames' = length Demo.fortyFrames
      ∧ ∀ i, frames' !! i
             = (if bool_decide (i < 39 ∧ i ≠ 35 ∧ i ≠ 36)%nat
                then x_minus 1 else id) <$> Demo.fortyFrames !! i.
Proof.
  assert (Duke_RIGHT ∈ [Duke_LEFT; Duke_RIGHT]) as Hid by in_category.
  assert (39 ≤ length Demo.fortyFrames)%nat as Hlen by (vm_compute; lia).
  split; [exact Hid|]. split; [exact Hlen|].
  exact (duke_rule_shifts_frames Demo.fortyFrames Duke_RIGHT [] newFactory
           Hid Hlen).
Defined.

(** Witness of X4: the rule of the watchbot container carrier on six
    frames. *)
Lemma watchbot_carrier_rule_witness :
  applyTweaks Demo.sixFrames Watchbot_container_carrier [] newFactory
    = Returned
        [ frameDrawData (Demo.frame 0); frameDrawData (Demo.frame 1);
          mkSpriteFrame (mImage (frameDrawData (Demo.frame 2)))
            (Base.mkVector
               (int.add (Base.x (mDrawOffset (frameDrawData (Demo.frame 2)))) 0)
               (int.add (Base.y (mDrawOffset (frameDrawData (Demo.frame 2))))
                        (-2))) ]
        newFactory.
Proof.
  apply (watchbot_carrier_rule Demo.sixFrames [] newFactory); reflexivity.
Defined.

(** Witness of X6: a hoverbot in the package that lacks its teleport
    effect. *)
Lemma createOrFindData_throws_iff_part_missing_witness :
  mSpriteDataCache newFactory !! Hoverbot = None
  ∧ ((∃ w',
        createOrFindData Demo.PLAYER_PROJECTILE_DRAW_ORDER
          Demo.MUZZLE_FLASH_DRAW_ORDER Demo.EFFECT_DRAW_ORDER
          Demo.loadActorWithoutEffect Hoverbot newFactory = Thrown w')
     ↔ Exists (λ partId, Demo.loadActorWithoutEffect partId = None)
              (actorIDListForActor Hoverbot)).
Proof.
  assert (mSpriteDataCache newFactory !! Hoverbot = None) as Hmiss
    by reflexivity.
  split; [exact Hmiss|].
  exact (createOrFindData_throws_iff_part_missing
           Demo.PLAYER_PROJECTILE_DRAW_ORDER Demo.MUZZLE_FLASH_DRAW_ORDER
           Demo.EFFECT_DRAW_ORDER Demo.loadActorWithoutEffect Hoverbot
           newFactory Hmiss).
Defined.

(** Witness of X7: the same hoverbot: its body is loaded, its effect is
    asked for and missing. *)
Lemma createOrFindData_throw_leaves_no_trace_witness :
  ∃ w',
    createOrFindData Demo.PLAYER_PROJECTILE_DRAW_ORDER
      Demo.MUZZLE_FLASH_DRAW_ORDER Demo.EFFECT_DRAW_ORDER
      Demo.loadActorWithoutEffect Hoverbot newFactory = Thrown w'
    ∧ calls w' = [LoadActor Hoverbot_teleport_FX; LoadActor Hoverbot]
    ∧ mSpriteDataCache w' = mSpriteDataCache newFactory
    ∧ ∃ loaded missing rest,
        actorIDListForActor Hoverbot = loaded ++ missing :: rest
        ∧ Forall (λ partId, is_Some (Demo.loadActorWithoutEffect partId)) loaded
        ∧ Demo.loadActorWithoutEffect missing = None
        ∧ calls w' = LoadActor missing :: rev (LoadActor <$> loaded)
                       ++ calls newFactory.
Proof.
  eexists. split; [vm_compute; reflexivity|]. split; [reflexivity|].
  apply (createOrFindData_throw_leaves_no_trace
           Demo.PLAYER_PROJECTILE_DRAW_ORDER Demo.MUZZLE_FLASH_DRAW_ORDER
           Demo.EFFECT_DRAW_ORDER Demo.loadActorWithoutEffect Hoverbot
           newFactory).
  vm_compute. reflexivity.
Defined.

(** Witness of X8: the skeleton enters an empty cache. *)
Lemma createOrFindData_updates_one_key_witness :
  ∃ data w',
    Demo.createOrFindData Skeleton newFactory = Returned data w'
    ∧ mSpriteDataCache w' = <[Skeleton := data]> (mSpriteDataCache newFactory)
    ∧ dom (mSpriteDataCache w')
        = {[Skeleton]} ∪ dom (mSpriteDataCache newFactory)
    ∧ (∀ cached, mSpriteDataCache newFactory !! Skeleton = Some cached →
                 data = cached ∧ w' = newFactory).
Proof.
  eexists _, _. split; [vm_compute; reflexivity|].
  apply (createOrFindData_updates_one_key
           Demo.PLAYER_PROJECTILE_DRAW_ORDER Demo.MUZZLE_FLASH_DRAW_ORDER
           Demo.EFFECT_DRAW_ORDER Demo.loadActor Skeleton newFactory).
  vm_compute. reflexivity.
Defined.

(** Witness of X9: the ship: three loads, ten textures, two more. *)
Lemma createOrFindData_call_order_witness :
  mSpriteDataCache newFactory !! Dukes_ship_LEFT = None
  ∧ ∃ data w',
      Demo.createOrFindData Dukes_ship_LEFT newFactory = Returned data w'
      ∧ length (calls w') = 15%nat
      ∧ ∃ actorParts extra,
          Forall2 (λ id actorData, Demo.loadActor id = Some actorData)
                  (actorIDListForActor Dukes_ship_LEFT) actorParts
          ∧ calls w'
              = (CreateTexture <$> extra)
                  ++ rev ((λ frameData,
                             CreateTexture (Loader.mFrameImage frameData))
                            <$> (actorParts ≫= Loader.mFrames))
                  ++ rev (LoadActor <$> actorIDListForActor Dukes_ship_LEFT)
                  ++ calls newFactory
          ∧ length extra
              = if bool_decide (Dukes_ship_LEFT ∈ shipActors)
                then 2%nat else 0%nat.
Proof.
  assert (mSpriteDataCache newFactory !! Dukes_ship_LEFT = None) as Hmiss
    by reflexivity.
  split; [exact Hmiss|].
  eexists _, _. split; [vm_compute; reflexivity|]. split; [reflexivity|].
  eapply (createOrFindData_call_order
            Demo.PLAYER_PROJECTILE_DRAW_ORDER Demo.MUZZLE_FLASH_DRAW_ORDER
            Demo.EFFECT_DRAW_ORDER Demo.loadActor Dukes_ship_LEFT newFactory).
  - exact Hmiss.
  - vm_compute. reflexivity.
Defined.

(** Witness of X10: the bomb-dropping spaceship, cached after one call; its
    draw order comes from the draw index of the napalm bomb, its last
    part. *)
Lemma cache_entries_follow_their_key_witness :
  ∃ data w,
    later Demo.PLAYER_PROJECTILE_DRAW_ORDER Demo.MUZZLE_FLASH_DRAW_ORDER
          Demo.EFFECT_DRAW_ORDER Demo.loadActor newFactory w
    ∧ mSpriteDataCache w !! Bomb_dropping_spaceship = Some data
    ∧ mOrientationOffset (mDrawData data)
        = orientationOffsetForActor Bomb_dropping_spaceship
    ∧ mVirtualToRealFrameMap (mDrawData data)
        = frameMapForActor Bomb_dropping_spaceship
    ∧ head (mInitialFramesToRender data) = Some 0
    ∧ ∃ actorParts lastPart,
        Forall2 (λ id actorData, Demo.loadActor id = Some actorData)
                (actorIDListForActor Bomb_dropping_spaceship) actorParts
        ∧ last actorParts = Some lastPart
        ∧ mDrawOrder (mDrawData data)
            = adjustedDrawOrder Demo.PLAYER_PROJECTILE_DRAW_ORDER
                Demo.MUZZLE_FLASH_DRAW_ORDER Demo.EFFECT_DRAW_ORDER
                Bomb_dropping_spaceship (Loader.mDrawIndex lastPart).
Proof.
  eexists _, _.
  split; [eapply rtc_once, (step_returned _ _ _ _ Bomb_dropping_spaceship);
          vm_compute; reflexivity|].
  split; [vm_compute; reflexivity|].
  eapply (cache_entries_follow_their_key
            Demo.PLAYER_PROJECTILE_DRAW_ORDER Demo.MUZZLE_FLASH_DRAW_ORDER
            Demo.EFFECT_DRAW_ORDER Demo.loadActor Bomb_dropping_spaceship).
  - eapply rtc_once, (step_returned _ _ _ _ Bomb_dropping_spaceship).
    vm_compute. reflexivity.
  - vm_compute. reflexivity.
Defined.

(** Witness of X12: a blowing fan, assembled from two parts of two frames
    each. *)
Lemma untweaked_assembly_concatenates_parts_witness :
  scaleDefined Demo.PLAYER_PROJECTILE_DRAW_ORDER
  ∧ scaleDefined Demo.MUZZLE_FLASH_DRAW_ORDER
  ∧ scaleDefined Demo.EFFECT_DRAW_ORDER
  ∧ scaleDefined
      (lastDrawIndex [Demo.actor 5 [20; 21]; Demo.actor 5 [20; 21]])
  ∧ (Blowing_fan ∉ tweakedActors)
  ∧ mSpriteDataCache newFactory !! Blowing_fan = None
  ∧ Forall2 (λ id actorData, Demo.loadActor id = Some actorData)
            (actorIDListForActor Blowing_fan)
            [Demo.actor 5 [20; 21]; Demo.actor 5 [20; 21]]
  ∧ ∃ data w',
      Demo.createOrFindData Blowing_fan newFactory = Returned data w'
      ∧ mFrames (mDrawData data)
          = (λ frameData,
               mkSpriteFrame (mkTexture (Loader.mFrameImage frameData))
                             (Loader.mDrawOffset frameData))
              <$> ([Demo.actor 5 [20; 21]; Demo.actor 5 [20; 21]]
                     ≫= Loader.mFrames)
      ∧ length (mFrames (mDrawData data))
          = sum_list ((λ actorData, length (Loader.mFrames actorData))
                        <$> [Demo.actor 5 [20; 21]; Demo.actor 5 [20; 21]]).
Proof.
  assert (scaleDefined Demo.PLAYER_PROJECTILE_DRAW_ORDER) as Hprojectile
    by (by vm_compute).
  assert (scaleDefined Demo.MUZZLE_FLASH_DRAW_ORDER) as Hflash
    by (by vm_compute).
  assert (scaleDefined Demo.EFFECT_DRAW_ORDER) as Heffect by (by vm_compute).
  assert (scaleDefined
            (lastDrawIndex [Demo.actor 5 [20; 21]; Demo.actor 5 [20; 21]]))
    as Hlast by (by vm_compute).
  assert (Blowing_fan ∉ tweakedActors) as Hplain
    by (intros Hin; not_in_category Hin).
  assert (mSpriteDataCache newFactory !! Blowing_fan = None) as Hmiss
    by reflexivity.
  assert (Forall2 (λ id actorData, Demo.loadActor id = Some actorData)
            (actorIDListForActor Blowing_fan)
            [Demo.actor 5 [20; 21]; Demo.actor 5 [20; 21]]) as Hparts
    by (by repeat constructor).
  split; [exact Hprojectile|]. split; [exact Hflash|].
  split; [exact Heffect|]. split; [exact Hlast|].
  split; [exact Hplain|]. split; [exact Hmiss|]. split; [exact Hparts|].
  exact (untweaked_assembly_concatenates_parts
           Demo.PLAYER_PROJECTILE_DRAW_ORDER Demo.MUZZLE_FLASH_DRAW_ORDER
           Demo.EFFECT_DRAW_ORDER Demo.loadActor Blowing_fan _ newFactory
           Hprojectile Hflash Heffect Hlast Hplain Hmiss Hparts).
Defined.

(** Witness of X14: both teleporters, requested one after the other. *)
Lemma shared_assemblies_have_equal_entries_witness :
  (Teleporter_1, Teleporter_2) ∈ sharedAssemblies
  ∧ ∃ w dataA dataB,
      later Demo.PLAYER_PROJECTILE_DRAW_ORDER Demo.MUZZLE_FLASH_DRAW_ORDER
            Demo.EFFECT_DRAW_ORDER Demo.loadActor newFactory w
      ∧ mSpriteDataCache w !! Teleporter_1 = Some dataA
      ∧ mSpriteDataCache w !! Teleporter_2 = Some dataB
      ∧ dataA = dataB.
Proof.
  assert ((Teleporter_1, Teleporter_2) ∈ sharedAssemblies) as Hpair
    by in_category.
  split; [exact Hpair|].
  assert (∃ w,
            later Demo.PLAYER_PROJECTILE_DRAW_ORDER
                  Demo.MUZZLE_FLASH_DRAW_ORDER Demo.EFFECT_DRAW_ORDER
                  Demo.loadActor newFactory w
            ∧ is_Some (mSpriteDataCache w !! Teleporter_1)
            ∧ is_Some (mSpriteDataCache w !! Teleporter_2))
    as (w & Hlater & [dataA Ha] & [dataB Hb]).
  { eexists. split; [|split].
    - eapply rtc_l; [eapply (step_returned _ _ _ _ Teleporter_1);
                     vm_compute; reflexivity|].
      eapply rtc_once, (step_returned _ _ _ _ Teleporter_2).
      vm_compute. reflexivity.
    - eexists. vm_compute. reflexivity.
    - eexists. vm_compute. reflexivity. }
  exists w, dataA, dataB. split; [exact Hlater|]. split; [exact Ha|].
  split; [exact Hb|].
  exact (shared_assemblies_have_equal_entries
           Demo.PLAYER_PROJECTILE_DRAW_ORDER Demo.MUZZLE_FLASH_DRAW_ORDER
           Demo.EFFECT_DRAW_ORDER Demo.loadActor Teleporter_1 Teleporter_2
           w dataA dataB Hpair Hlater Ha Hb).
Defined.

(** Witness of X15: a snake on layer 4, a skeleton and a bomb on layer 5. *)
Lemma adjustedDrawOrder_keeps_layers_witness :
  (adjustedDrawOrder Demo.PLAYER_PROJECTILE_DRAW_ORDER
     Demo.MUZZLE_FLASH_DRAW_ORDER Demo.EFFECT_DRAW_ORDER Snake 4
   < adjustedDrawOrder Demo.PLAYER_PROJECTILE_DRAW_ORDER
       Demo.MUZZLE_FLASH_DRAW_ORDER Demo.EFFECT_DRAW_ORDER Skeleton 5
   ↔ 4 < 5)
  ∧ adjustedDrawOrder Demo.PLAYER_PROJECTILE_DRAW_ORDER
      Demo.MUZZLE_FLASH_DRAW_ORDER Demo.EFFECT_DRAW_ORDER Napalm_bomb 5
    < adjustedDrawOrder Demo.PLAYER_PROJECTILE_DRAW_ORDER
        Demo.MUZZLE_FLASH_DRAW_ORDER Demo.EFFECT_DRAW_ORDER Snake 5
  ∧ (4 < 5 →
     adjustedDrawOrder Demo.PLAYER_PROJECTILE_DRAW_ORDER
       Demo.MUZZLE_FLASH_DRAW_ORDER Demo.EFFECT_DRAW_ORDER Snake 4
     < adjustedDrawOrder Demo.PLAYER_PROJECTILE_DRAW_ORDER
         Demo.MUZZLE_FLASH_DRAW_ORDER Demo.EFFECT_DRAW_ORDER Napalm_bomb 5).
Proof.
  apply (adjustedDrawOrder_keeps_layers
           Demo.PLAYER_PROJECTILE_DRAW_ORDER Demo.MUZZLE_FLASH_DRAW_ORDER
           Demo.EFFECT_DRAW_ORDER Snake Skeleton 4 5);
    first [ discriminate
          | by vm_compute
          | intros Hin; not_in_category Hin ].
Defined.

(** Witness of X17: the rule of the ship on forty frames. *)
Lemma ship_rule_keeps_every_frame_witness :
  ∃ frames' w',
    applyTweaks Demo.fortyFrames Dukes_ship_LEFT
      [Demo.actor 3 [0; 1]; Demo.actor 3 [2; 3]; Demo.actor 4 [4; 5]]
      newFactory = Returned frames' w'
    ∧ length frames' = (length Demo.fortyFrames + 2)%nat
    ∧ (∀ i, (i < 8)%nat → frames' !! i = Demo.fortyFrames !! i)
    ∧ (∀ i, (8 ≤ i)%nat → frames' !! (i + 2)%nat = Demo.fortyFrames !! i).
Proof.
  apply (ship_rule_keeps_every_frame Demo.fortyFrames Dukes_ship_LEFT
           [Demo.actor 3 [0; 1]; Demo.actor 3 [2; 3]; Demo.actor 4 [4; 5]]
           (Demo.actor 4 [4; 5]) newFactory).
  - in_category.
  - vm_compute. lia.
  - reflexivity.
  - simpl. lia.
Defined.

(** Witness of X3: forty frames, of which the last thirty-two are moved. *)
Lemma radar_rule_shifts_frames_witness :
  Forall (λ frame, int.min_int < Base.x (mDrawOffset frame) ≤ int.max_int)
         (drop 8 Demo.fortyFrames)
  ∧ ∃ frames',
      applyTweaks Demo.fortyFrames Radar_computer_terminal [] newFactory
        = Returned frames' newFactory
      ∧ length frames' = length Demo.fortyFrames
      ∧ ∀ i, frames' !! i
             = (if bool_decide (8 ≤ i)%nat
                then with_offset
                       (λ v, Base.mkVector (Base.x v - 1) (Base.y v))
                else id)
                 <$> Demo.fortyFrames !! i.
Proof.
  assert (Forall (λ frame,
                    int.min_int < Base.x (mDrawOffset frame) ≤ int.max_int)
                 (drop 8 Demo.fortyFrames)) as Hrange
    by (repeat constructor; by vm_compute).
  split; [exact Hrange|].
  exact (radar_rule_shifts_frames Demo.fortyFrames [] newFactory Hrange).
Defined.

(** Every part of the small package is in range. *)
Lemma demo_parts_in_range id actorData :
  Demo.loadActor id = Some actorData → partInRange actorData.
Proof.
  destruct id; intros [= <-]; (split; [by vm_compute|]);
    repeat constructor; by vm_compute.
Qed.

(** Witness of X16: the player sprite of the small package has two frames,
    where its rule needs thirty-nine. *)
Lemma createOrFindData_undefined_iff_parts_too_short_witness :
  scaleDefined Demo.PLAYER_PROJECTILE_DRAW_ORDER
  ∧ scaleDefined Demo.MUZZLE_FLASH_DRAW_ORDER
  ∧ scaleDefined Demo.EFFECT_DRAW_ORDER
  ∧ (∀ id actorData,
       Demo.loadActor id = Some actorData → partInRange actorData)
  ∧ Demo.createOrFindData Duke_LEFT newFactory = Undefined
  ∧ (Demo.createOrFindData Duke_LEFT newFactory = Undefined
     ↔ mSpriteDataCache newFactory !! Duke_LEFT = None
       ∧ ∃ actorParts,
           Forall2 (λ id actorData, Demo.loadActor id = Some actorData)
                   (actorIDListForActor Duke_LEFT) actorParts
           ∧ ¬ tweakInBounds (concatenated actorParts) Duke_LEFT actorParts).
Proof.
  assert (scaleDefined Demo.PLAYER_PROJECTILE_DRAW_ORDER) as Hprojectile
    by (by vm_compute).
  assert (scaleDefined Demo.MUZZLE_FLASH_DRAW_ORDER) as Hflash
    by (by vm_compute).
  assert (scaleDefined Demo.EFFECT_DRAW_ORDER) as Heffect by (by vm_compute).
  split; [exact Hprojectile|]. split; [exact Hflash|].
  split; [exact Heffect|]. split; [exact demo_parts_in_range|].
  split; [reflexivity|].
  exact (createOrFindData_undefined_iff_parts_too_short
           Demo.PLAYER_PROJECTILE_DRAW_ORDER Demo.MUZZLE_FLASH_DRAW_ORDER
           Demo.EFFECT_DRAW_ORDER Demo.loadActor Duke_LEFT newFactory
           Hprojectile Hflash Heffect demo_parts_in_range).
Defined.
